(** * CampusFIX, admin page [Students.jsx]: a shallow embedding

    The page keeps four pieces of hook state (the cached student list, a
    loading flag, the search term and the current toast), derives the
    filtered list from the first and third, and talks to the backend
    through two asynchronous calls.  This file embeds

    - the JavaScript fragment the page relies on (values, truthiness,
      property reads, the string methods [trim] and [includes]);
    - [filteredStudents], the search filter;
    - [getTrustColor] and the two score badges;
    - the dynamic parts of the rendered view (banner, spinner, empty
      state, table rows and cards);
    - the event-driven part ([showToast], [loadStudents], the initial
      load effect, [handleRequest], timers and teardown) as a
      deterministic transition function on an explicit world state.

    Strings are sequences of UTF-16 code units, as in the language.  The
    case mapping of the runtime ([String.prototype.toLowerCase]) and its
    numeric coercion of strings, arrays and objects are parameters of
    the development. *)

From Stdlib Require Import ZArith NArith List String Ascii Lia Bool.
From stdpp Require Import base option list gmap.

Set Warnings "-register-all".
#[local] Open Scope Z_scope.

(** ** The JavaScript fragment *)

Module JS.

(** A string is a list of UTF-16 code units. *)
Definition jsstring : Type := list N.

(** ASCII literals of the source, as code units. *)
Definition u16 (s : string) : jsstring :=
  map N_of_ascii (list_ascii_of_string s).

(** Values that can reach the page: what [JSON.parse] produces, plus
    [undefined] for an absent property.  Numbers are the integers. *)
Inductive value : Type :=
| VUndefined
| VNull
| VBool (b : bool)
| VNum (n : Z)
| VStr (s : jsstring)
| VArr (elems : list value)
| VObj (fields : gmap jsstring value).

(** Results of numeric coercion. *)
Inductive num : Type :=
| NaN
| Num (n : Z).

Inductive error : Type :=
| TypeError.

(** Normal or abrupt completion of an expression. *)
Inductive completion (A : Type) : Type :=
| Normal (a : A)
| Throw (e : error).
Arguments Normal {A} a.
Arguments Throw {A} e.

#[export] Instance completion_ret : MRet completion := @Normal.
#[export] Instance completion_bind : MBind completion :=
  fun A B f m => match m with Normal a => f a | Throw e => Throw e end.

(** An object literal with ASCII property names. *)
Definition obj (fields : list (string * value)) : value :=
  VObj (list_to_map (map (fun p => (u16 (fst p), snd p)) fields)).

(** [ToBoolean]: the falsy values are [undefined], [null], [false], [0]
    and the empty string. *)
Definition ToBoolean (v : value) : bool :=
  match v with
  | VUndefined | VNull => false
  | VBool b => b
  | VNum n => negb (n =? 0)
  | VStr s => match s with [] => false | _ :: _ => true end
  | VArr _ | VObj _ => true
  end.

(** [a || b] on values. *)
Definition logicalOr (a b : value) : value :=
  if ToBoolean a then a else b.

(** [o.k] for a property name [k] that no built-in prototype defines
    (the page reads [full_name], [enrollment_no], [credit_score], ...):
    reading from [undefined] or [null] throws, an object answers with
    its own property or [undefined], every other value with
    [undefined]. *)
Definition getProp (o : value) (k : jsstring) : completion value :=
  match o with
  | VUndefined | VNull => Throw TypeError
  | VObj fields => Normal (default VUndefined (fields !! k))
  | VBool _ | VNum _ | VStr _ | VArr _ => Normal VUndefined
  end.

(** White space and line terminators, the code units [trim] strips. *)
Definition isWhiteSpace (c : N) : bool :=
  ((9 <=? c) && (c <=? 13) || (c =? 32) || (c =? 160) || (c =? 5760)
   || (8192 <=? c) && (c <=? 8202) || (c =? 8232) || (c =? 8233)
   || (c =? 8239) || (c =? 8287) || (c =? 12288) || (c =? 65279))%N.

Fixpoint trimStart (s : jsstring) : jsstring :=
  match s with
  | [] => []
  | c :: s' => if isWhiteSpace c then trimStart s' else s
  end.

Definition trimEnd (s : jsstring) : jsstring :=
  rev (trimStart (rev s)).

(** [s.trim()] *)
Definition trim (s : jsstring) : jsstring :=
  trimEnd (trimStart s).

Fixpoint startsWith (s t : jsstring) {struct t} : bool :=
  match t, s with
  | [], _ => true
  | _ :: _, [] => false
  | d :: t', c :: s' => (c =? d)%N && startsWith s' t'
  end.

(** [s.includes(t)] for a string argument [t]. *)
Fixpoint includes (s t : jsstring) : bool :=
  startsWith s t ||
  match s with
  | [] => false
  | _ :: s' => includes s' t
  end.

(** [Array.prototype.filter] with a callback that may throw: the
    callback runs on the elements in order, and the first exception
    aborts the whole call. *)
Fixpoint filterM (f : value -> completion bool) (l : list value)
  : completion (list value) :=
  match l with
  | [] => mret []
  | x :: xs =>
      b ← f x;
      r ← filterM f xs;
      mret (if b : bool then x :: r else r)
  end.

Section Runtime.

(** The runtime's [String.prototype.toLowerCase]. *)
Variable toLowerCase : jsstring -> jsstring.

(** [v.toLowerCase()]: only a string has the method. *)
Definition callToLowerCase (v : value) : completion jsstring :=
  match v with
  | VStr s => Normal (toLowerCase s)
  | _ => Throw TypeError
  end.

End Runtime.

(** The case mapping restricted to the ASCII letters, for examples. *)
Definition asciiLowerUnit (c : N) : N :=
  (if (65 <=? c) && (c <=? 90) then c + 32 else c)%N.

Definition asciiLower (s : jsstring) : jsstring := map asciiLowerUnit s.

End JS.

Import JS.

(** ** The search filter (lines 75-83) *)

Module Filter.

Section Filter.

Variable toLowerCase : jsstring -> jsstring.

(** The callback of [students.filter]:
    [(s.full_name || "").toLowerCase().includes(term) ||
     (s.enrollment_no || "").toLowerCase().includes(term)].
    The right operand is evaluated only when the left one is false. *)
Definition matchesTerm (term : jsstring) (s : value) : completion bool :=
  name ← getProp s (u16 "full_name");
  lname ← callToLowerCase toLowerCase (logicalOr name (VStr []));
  if includes lname term then mret true
  else
    enr ← getProp s (u16 "enrollment_no");
    lenr ← callToLowerCase toLowerCase (logicalOr enr (VStr []));
    mret (includes lenr term).

(** The body of the [useMemo]: [term] is the lower-cased, trimmed
    search term; [!term] holds exactly for the empty string. *)
Definition filteredStudents (students : list value) (searchTerm : jsstring)
  : completion (list value) :=
  let term := trim (toLowerCase searchTerm) in
  if negb (ToBoolean (VStr term)) then mret students
  else filterM (matchesTerm term) students.

(** *** The contract, in the words of the specification *)

(** [t] occurs in [s] as a contiguous block. *)
Definition substring (t s : jsstring) : Prop :=
  exists pre post, s = pre ++ t ++ post.

(** The field [k] of a record, [undefined] when absent. *)
Definition field (s : value) (k : jsstring) : value :=
  match s with
  | VObj fields => default VUndefined (fields !! k)
  | _ => VUndefined
  end.

(** The text of a field; a missing one counts as the empty string. *)
Definition textOf (v : value) : jsstring :=
  match v with
  | VStr s => s
  | _ => []
  end.

(** The substring rule on the name or the enrollment number. *)
Definition keeps (term : jsstring) (s : value) : Prop :=
  substring term (toLowerCase (textOf (field s (u16 "full_name")))) \/
  substring term (toLowerCase (textOf (field s (u16 "enrollment_no")))).

(** A field the callback can lower-case: a string, or any falsy value
    (which [|| ""] replaces by the empty string). *)
Definition textual (v : value) : bool :=
  match v with
  | VStr _ => true
  | _ => negb (ToBoolean v)
  end.

(** A record the callback can read: not [undefined] or [null], with a
    textual name and a textual enrollment number. *)
Definition readable (s : value) : bool :=
  match s with
  | VUndefined | VNull => false
  | _ => textual (field s (u16 "full_name"))
         && textual (field s (u16 "enrollment_no"))
  end.

End Filter.

(** [Filtered P l r]: [r] keeps, in order and with multiplicity, exactly
    the elements of [l] that satisfy [P]. *)
Inductive Filtered {A : Type} (P : A -> Prop) : list A -> list A -> Prop :=
| Filtered_nil : Filtered P [] []
| Filtered_keep x l r : P x -> Filtered P l r -> Filtered P (x :: l) (x :: r)
| Filtered_skip x l r : ~ P x -> Filtered P l r -> Filtered P (x :: l) r.

End Filter.

(** ** The trust badge (lines 95-100, 216-218, 244-246) *)

Module Trust.

Section Trust.

(** Numeric coercion of strings, arrays and objects, left to the
    runtime. *)
Variable coerce : value -> num.

Definition ToNumber (v : value) : num :=
  match v with
  | VUndefined => NaN
  | VNull => Num 0
  | VBool b => Num (if b then 1 else 0)
  | VNum n => Num n
  | VStr _ | VArr _ | VObj _ => coerce v
  end.

(** [v >= k] and [v < k] against a numeric literal [k]; a comparison
    with [NaN] is false. *)
Definition geNum (v : value) (k : Z) : bool :=
  match ToNumber v with
  | NaN => false
  | Num n => k <=? n
  end.

Definition ltNum (v : value) (k : Z) : bool :=
  match ToNumber v with
  | NaN => false
  | Num n => n <? k
  end.

Definition green : jsstring := u16 "#22c55e".
Definition blue : jsstring := u16 "#3b82f6".
Definition yellow : jsstring := u16 "#eab308".
Definition red : jsstring := u16 "#ef4444".

Definition getTrustColor (score : value) : jsstring :=
  if geNum score 10 then green
  else if geNum score 5 then blue
  else if geNum score 0 then yellow
  else red.

(** The four tiers of the glossary and their thresholds. *)
Inductive tier : Type :=
| Highest
| Mid
| Low
| Flagged.

Definition InTier (t : tier) (score : Z) : Prop :=
  match t with
  | Highest => 10 <= score
  | Mid => 5 <= score < 10
  | Low => 0 <= score < 5
  | Flagged => score < 0
  end.

Definition tierColor (t : tier) : jsstring :=
  match t with
  | Highest => green
  | Mid => blue
  | Low => yellow
  | Flagged => red
  end.

Inductive icon : Type :=
| AlertTriangle
| ShieldCheck.

(** What a badge shows: its colour (border and text), its icon if it
    has one, and the value rendered as its label. *)
Record badge : Type := Badge {
  badgeColor : jsstring;
  badgeIcon : option icon;
  badgeLabel : value
}.

(** The badge of a table row (lines 216-218). *)
Definition desktopBadge (s : value) : completion badge :=
  score ← getProp s (u16 "credit_score");
  mret {| badgeColor := getTrustColor (logicalOr score (VNum 0));
          badgeIcon := Some (if ltNum score 0 then AlertTriangle
                             else ShieldCheck);
          badgeLabel := logicalOr score (VNum 0) |}.

(** The badge of a card (lines 244-246); it has no icon. *)
Definition mobileBadge (s : value) : completion badge :=
  score ← getProp s (u16 "credit_score");
  mret {| badgeColor := getTrustColor (logicalOr score (VNum 0));
          badgeIcon := None;
          badgeLabel := logicalOr score (VNum 0) |}.

End Trust.

End Trust.

(** ** The page as a state machine (lines 5-93, 165) *)

Module Page.

(** The toast object [{ type, message, _id }]; [_id] is the handle of
    its dismissal timer. *)
Record toastT : Type := Toast {
  toastType : jsstring;
  toastMessage : jsstring;
  toast_id : Z
}.

(** The two backend calls: [api.get('/users/all')] and
    [api.post(`/users/${id}/manage-hostel`, { action })]. *)
Inductive request : Type :=
| GetAll
| PostManageHostel (id : value) (action : jsstring).

(** How a call settles: the promise resolves with [res.data] (for
    [/users/all], the array of student records), or it is rejected. *)
Inductive response : Type :=
| Resolved (data : list value)
| Rejected.

(** The code waiting behind an [await]. *)
Inductive kont : Type :=
| KInitialLoad
| KLoadStudents
| KHandleRequest (action : jsstring).

(** What the page does to the outside, in the order it does it.
    [SetToast t] is a toast state set to [t]; [SetToastQueued] is a
    call of [setToast] with a function that the framework queues and
    does not get to run. *)
Inductive effect : Type :=
| SetStudents (data : list value)
| SetLoading (b : bool)
| SetSearchTerm (s : jsstring)
| SetToast (t : option toastT)
| SetTimeout (id delay : Z)
| ClearTimeout (id : Z)
| ConsoleError (msg : jsstring)
| ApiCall (r : request)
| ScrollTo
| SetToastQueued.

(** The hook state, the [isMounted] variable of the initial-load effect,
    the clock and the pending timeouts [(handle, deadline)], the calls
    in flight, and the trace of effects.  For the mounted component a
    state setter stores its argument, and the function passed to
    [setToast] by [showToast] is applied, when it is called.  Once the
    component is being torn down the framework applies no update any
    more: the function passed by the cleanup never runs ([unmount]),
    and what the cells hold from then on is on nobody's screen; there
    the trace still tells which setters the code called. *)
Record world : Type := World {
  students : list value;
  loading : bool;
  searchTerm : jsstring;
  toast : option toastT;
  isMounted : bool;
  now : Z;
  timers : list (Z * Z);
  nextTimer : Z;
  inflight : list (request * kont);
  trace : list effect
}.

Definition emit (e : effect) (w : world) : world :=
  World (students w) (loading w) (searchTerm w) (toast w) (isMounted w)
        (now w) (timers w) (nextTimer w) (inflight w) (trace w ++ [e]).

Definition setStudents (data : list value) (w : world) : world :=
  emit (SetStudents data)
    (World data (loading w) (searchTerm w) (toast w) (isMounted w)
           (now w) (timers w) (nextTimer w) (inflight w) (trace w)).

Definition setLoading (b : bool) (w : world) : world :=
  emit (SetLoading b)
    (World (students w) b (searchTerm w) (toast w) (isMounted w)
           (now w) (timers w) (nextTimer w) (inflight w) (trace w)).

Definition setSearchTerm (s : jsstring) (w : world) : world :=
  emit (SetSearchTerm s)
    (World (students w) (loading w) s (toast w) (isMounted w)
           (now w) (timers w) (nextTimer w) (inflight w) (trace w)).

Definition setToast (t : option toastT) (w : world) : world :=
  emit (SetToast t)
    (World (students w) (loading w) (searchTerm w) t (isMounted w)
           (now w) (timers w) (nextTimer w) (inflight w) (trace w)).

Definition setIsMounted (b : bool) (w : world) : world :=
  World (students w) (loading w) (searchTerm w) (toast w) b
        (now w) (timers w) (nextTimer w) (inflight w) (trace w).

Definition setTimers (ts : list (Z * Z)) (w : world) : world :=
  World (students w) (loading w) (searchTerm w) (toast w) (isMounted w)
        (now w) ts (nextTimer w) (inflight w) (trace w).

Definition setInflight (rs : list (request * kont)) (w : world) : world :=
  World (students w) (loading w) (searchTerm w) (toast w) (isMounted w)
        (now w) (timers w) (nextTimer w) rs (trace w).

Definition consoleError (msg : jsstring) : world -> world :=
  emit (ConsoleError msg).

(** [setTimeout(cb, delay)]: a fresh handle, due [delay] after now.
    Every timeout of the page has the callback [() => setToast(null)]. *)
Definition setTimeout (delay : Z) (w : world) : Z * world :=
  let id := nextTimer w in
  (id, emit (SetTimeout id delay)
         (World (students w) (loading w) (searchTerm w) (toast w)
                (isMounted w) (now w) (timers w ++ [(id, now w + delay)])
                (id + 1) (inflight w) (trace w))).

(** [clearTimeout(id)] *)
Definition clearTimeout (id : Z) (w : world) : world :=
  emit (ClearTimeout id)
    (setTimers (List.filter (fun t => negb (fst t =? id)) (timers w)) w).

(** [if (t?._id) clearTimeout(t._id)] *)
Definition clearToastTimer (t : option toastT) (w : world) : world :=
  match t with
  | Some prev => if ToBoolean (VNum (toast_id prev))
                 then clearTimeout (toast_id prev) w else w
  | None => w
  end.

Definition TOAST_DELAY : Z := 3000.

(** [showToast(type, message)] (lines 17-25), with its functional
    update applied as for the mounted component. *)
Definition showToast (type message : jsstring) (w : world) : world :=
  let w1 := clearToastTimer (toast w) w in
  let (id, w2) := setTimeout TOAST_DELAY w1 in
  setToast (Some (Toast type message id)) w2.

(** The cleanup of the toast effect (lines 29-34).  All it does is
    call [setToast] with a function; [clearTimeout] is called only
    inside that function.  The component is being unmounted and does
    not render again, so the framework never runs the function: the
    toast cell and the pending timeouts stay as they are. *)
Definition toastCleanup (w : world) : world :=
  emit SetToastQueued w.

(** An [await]ed backend call: the continuation joins the calls in
    flight. *)
Definition issue (r : request) (k : kont) (w : world) : world :=
  emit (ApiCall r) (setInflight (inflight w ++ [(r, k)]) w).

Definition fetchErrorLog : jsstring := u16 "Database Fetch Error:".
Definition fetchErrorMessage : jsstring := u16 "Failed to connect to database".

(** [loadStudents()] up to its [await] (lines 38-41) ... *)
Definition loadStudents (w : world) : world :=
  issue GetAll KLoadStudents (setLoading true w).

(** ... and from the [await] on (lines 42-48). *)
Definition loadStudentsResume (r : response) (w : world) : world :=
  let w1 := match r with
            | Resolved data => setStudents data w
            | Rejected =>
                showToast (u16 "error") fetchErrorMessage
                  (consoleError fetchErrorLog w)
            end in
  setLoading false w1.

(** The initial-load effect up to its [await] (lines 53-58) ... *)
Definition initialLoad (w : world) : world :=
  issue GetAll KInitialLoad (setLoading true (setIsMounted true w)).

(** ... and from the [await] on (lines 59-67). *)
Definition initialLoadResume (r : response) (w : world) : world :=
  let w1 := match r with
            | Resolved data => if isMounted w then setStudents data w else w
            | Rejected =>
                if isMounted w
                then showToast (u16 "error") fetchErrorMessage
                       (consoleError fetchErrorLog w)
                else w
            end in
  if isMounted w1 then setLoading false w1 else w1.

(** [handleRequest(id, action)] up to its [await] (lines 86-87) ... *)
Definition handleRequest (id : value) (action : jsstring) (w : world)
  : world :=
  issue (PostManageHostel id action) (KHandleRequest action) w.

Definition successMessage (action : jsstring) : jsstring :=
  u16 "Request " ++ action ++ u16 "ed successfully".

(** ... and from the [await] on (lines 88-92). *)
Definition handleRequestResume (action : jsstring) (r : response)
  (w : world) : world :=
  match r with
  | Resolved _ =>
      loadStudents (showToast (u16 "success") (successMessage action) w)
  | Rejected => showToast (u16 "error") (u16 "Action failed") w
  end.

Definition resume (k : kont) : response -> world -> world :=
  match k with
  | KInitialLoad => initialLoadResume
  | KLoadStudents => loadStudentsResume
  | KHandleRequest action => handleRequestResume action
  end.

(** The [i]-th call in flight settles with [r]. *)
Definition respond (i : nat) (r : response) (w : world) : world :=
  match inflight w !! i with
  | Some (_, k) => resume k r (setInflight (delete i (inflight w)) w)
  | None => w
  end.

(** The timeouts that are due run their callback [() => setToast(null)]
    and leave the pending list. *)
Fixpoint fireDue (ts : list (Z * Z)) (w : world) : world :=
  match ts with
  | [] => w
  | (id, deadline) :: ts' =>
      if deadline <=? now w
      then fireDue ts'
             (setToast None
                (setTimers
                   (List.filter (fun t => negb (fst t =? id)) (timers w)) w))
      else fireDue ts' w
  end.

(** The clock moves forward by [dt]; timeouts fire as soon as they are
    due. *)
Definition advance (dt : Z) (w : world) : world :=
  if 0 <=? dt then
    let w1 := World (students w) (loading w) (searchTerm w) (toast w)
                    (isMounted w) (now w + dt) (timers w) (nextTimer w)
                    (inflight w) (trace w) in
    fireDue (timers w1) w1
  else w.

(** The refresh button: [!loading && loadStudents()] (line 165). *)
Definition clickRefresh (w : world) : world :=
  if loading w then w else loadStudents w.

(** Teardown: the effect cleanups, in the order of the effects. *)
Definition unmount (w : world) : world :=
  setIsMounted false (toastCleanup w).

(** The component before its effects ran: the [useState] defaults. *)
Definition fresh : world :=
  World [] true [] None false 0 [] 1 [] [].

(** Mounting runs the effects: the scroll reset and the initial load. *)
Definition mount (w : world) : world :=
  initialLoad (emit ScrollTo w).

Definition initial : world := mount fresh.

Inductive event : Type :=
| Refresh
| Search (s : jsstring)
| Request (id : value) (action : jsstring)
| Respond (i : nat) (r : response)
| Advance (dt : Z)
| Unmount.

Definition step (w : world) (e : event) : world :=
  match e with
  | Refresh => clickRefresh w
  | Search s => setSearchTerm s w
  | Request id action => handleRequest id action w
  | Respond i r => respond i r w
  | Advance dt => advance dt w
  | Unmount => unmount w
  end.

Definition run (es : list event) (w : world) : world :=
  fold_left step es w.

(** A sequence of [showToast] calls, as [(type, message)] pairs. *)
Definition showAll (calls : list (jsstring * jsstring)) (w : world) : world :=
  fold_left (fun w c => showToast (fst c) (snd c) w) calls w.

(** One spec time unit is a second; timers count milliseconds. *)
Definition TIME_UNIT : Z := 1000.

(** The toast owns the pending timeouts: none without a toast, and
    with a toast exactly the one whose handle it stores, not yet due.
    Handles are positive. *)
Definition toastInv (w : world) : Prop :=
  0 < nextTimer w /\
  match toast w with
  | None => timers w = []
  | Some t =>
      0 < toast_id t /\ exists d, now w < d /\ timers w = [(toast_id t, d)]
  end.

(** The effects of [if (t?._id) clearTimeout(t._id)]. *)
Definition clearEffects (t : option toastT) : list effect :=
  match t with
  | Some prev => if ToBoolean (VNum (toast_id prev))
                 then [ClearTimeout (toast_id prev)] else []
  | None => []
  end.

Definition isRefreshCall (e : effect) : bool :=
  match e with
  | ApiCall GetAll => true
  | _ => false
  end.

Definition isListUpdate (e : effect) : bool :=
  match e with
  | SetStudents _ => true
  | _ => false
  end.

(** How often a trace requests the full list, and how often it stores
    a list. *)
Definition refreshCalls (tr : list effect) : nat :=
  length (List.filter isRefreshCall tr).

Definition listUpdates (tr : list effect) : nat :=
  length (List.filter isListUpdate tr).

End Page.

(** ** What the page renders (lines 102-272) *)

Module View.

Import Filter Trust Page.

(** [Array.prototype.map] with a callback that may throw. *)
Fixpoint arrayMap {B : Type} (f : value -> completion B) (l : list value)
  : completion (list B) :=
  match l with
  | [] => mret []
  | x :: xs =>
      y ← f x;
      ys ← arrayMap f xs;
      mret (y :: ys)
  end.

(** [v.charAt(0)]: only a string has the method. *)
Definition callCharAt0 (v : value) : completion jsstring :=
  match v with
  | VStr s => Normal (take 1 s)
  | _ => Throw TypeError
  end.

(** The hostel cell: the template [`${s.hostel}-${s.room_no}`], kept as
    its two interpolated values, or the placeholder of the layout. *)
Inductive hostelCell : Type :=
| HostelRoom (hostel room_no : value)
| Placeholder (text : jsstring).

(** [s.hostel ? `${s.hostel}-${s.room_no}` : placeholder] *)
Definition hostelOf (placeholder : jsstring) (s : value)
  : completion hostelCell :=
  hostel ← getProp s (u16 "hostel");
  if ToBoolean hostel then
    room_no ← getProp s (u16 "room_no");
    mret (HostelRoom hostel room_no)
  else mret (Placeholder placeholder).

(** The approve and reject buttons of a record: what their [onClick]
    handlers do, [handleRequest(s.id, 'approve')] and
    [handleRequest(s.id, 'reject')]. *)
Definition clicks (id : value) : list event :=
  [Request id (u16 "approve"); Request id (u16 "reject")].

(** A row of the table (lines 203-230).  [rowAction] is [Some id] when
    the two buttons are there and [None] when the cell is ['-']. *)
Record tableRow : Type := TableRow {
  rowKey : value;
  rowAvatar : jsstring;
  rowName : value;
  rowEmail : value;
  rowBadge : badge;
  rowEnrollment : value;
  rowHostel : hostelCell;
  rowAction : option value
}.

(** A card (lines 238-263).  [cardRequest] is the child
    [s.requested_hostel && (...)]: the falsy value itself, or the
    requested hostel with the id the two buttons send. *)
Record card : Type := Card {
  cardKey : value;
  cardName : value;
  cardBadge : badge;
  cardEnrollment : value;
  cardHostel : hostelCell;
  cardRequest : value + value * value
}.

Inductive body : Type :=
| Spinner
| NoneFound (term : jsstring)
| Listing (table : list tableRow) (cards : list card).

(** The dynamic parts of the page: the toast banner (border colour and
    message), the value of the search box, whether the refresh button
    is disabled, and the body. *)
Record view : Type := View {
  viewToast : option (jsstring * jsstring);
  viewSearch : jsstring;
  refreshDisabled : bool;
  viewBody : body
}.



(** The banner of a toast (lines 141-145). *)
Definition toastBanner (t : toastT) : jsstring * jsstring :=
  (if decide (toastType t = u16 "success")
   then u16 "#10b981" else u16 "#ef4444",
   toastMessage t).

Section View.

Variable toLowerCase : jsstring -> jsstring.
Variable coerce : value -> num.

Definition desktopRow (s : value) : completion tableRow :=
  id ← getProp s (u16 "id");
  full_name ← getProp s (u16 "full_name");
  avatar ← (if ToBoolean full_name then callCharAt0 full_name
            else mret (u16 "?"));
  email ← getProp s (u16 "email");
  badge ← desktopBadge coerce s;
  enrollment_no ← getProp s (u16 "enrollment_no");
  hostel ← hostelOf (u16 "None") s;
  requested_hostel ← getProp s (u16 "requested_hostel");
  mret {| rowKey := id;
          rowAvatar := avatar;
          rowName := full_name;
          rowEmail := email;
          rowBadge := badge;
          rowEnrollment := logicalOr enrollment_no (VStr (u16 "-"));
          rowHostel := hostel;
          rowAction := if ToBoolean requested_hostel then Some id
                       else None |}.

Definition mobileCard (s : value) : completion card :=
  id ← getProp s (u16 "id");
  full_name ← getProp s (u16 "full_name");
  badge ← mobileBadge coerce s;
  enrollment_no ← getProp s (u16 "enrollment_no");
  hostel ← hostelOf (u16 "Not Assigned") s;
  requested_hostel ← getProp s (u16 "requested_hostel");
  mret {| cardKey := id;
          cardName := full_name;
          cardBadge := badge;
          cardEnrollment := logicalOr enrollment_no (VStr (u16 "N/A"));
          cardHostel := hostel;
          cardRequest := if ToBoolean requested_hostel
                         then inr (requested_hostel, id)
                         else inl requested_hostel |}.

(** One call of the component function: the memoised filter runs
    first, then the JSX is built; the table and the cards are built
    only when the page is not loading and the filtered list is not
    empty.  What the framework then does with the values placed in the
    tree is not part of it. *)
Definition render (w : world) : completion view :=
  filtered ← filteredStudents toLowerCase (students w) (searchTerm w);
  content ← (if loading w then mret Spinner
             else match filtered with
                  | [] => mret (NoneFound (searchTerm w))
                  | _ :: _ =>
                      table ← arrayMap desktopRow filtered;
                      cards ← arrayMap mobileCard filtered;
                      mret (Listing table cards)
                  end);
  mret {| viewToast := toastBanner <$> toast w;
          viewSearch := searchTerm w;
          refreshDisabled := loading w;
          viewBody := content |}.

End View.

End View.

(** ** Shapes and histories used to state further properties *)

Module Shape.

Import Filter Page.

Definition nullish (v : value) : bool :=
  match v with
  | VUndefined | VNull => true
  | _ => false
  end.

Section Shape.

Variable toLowerCase : jsstring -> jsstring.

(** The records on which the filter callback ends in a [TypeError]:
    [null] and [undefined]; a name that is neither a string nor falsy;
    a name that does not contain the term next to an enrollment number
    that is neither a string nor falsy. *)
Definition callbackThrows (term : jsstring) (s : value) : bool :=
  nullish s
  || negb (textual (field s (u16 "full_name")))
  || negb (includes (toLowerCase (textOf (field s (u16 "full_name")))) term)
     && negb (textual (field s (u16 "enrollment_no"))).

End Shape.

(** The number a score stands for on the badge: itself when it is a
    number, 0 when it is missing. *)
Definition scoreOrZero (score : value) : Z :=
  match score with
  | VNum n => n
  | _ => 0
  end.

(** At most one fetch is under way, and the loading flag is up while
    it is. *)
Definition fetchGate (w : world) : Prop :=
  inflight w = []
  \/ (loading w = true
      /\ exists k, inflight w = [(GetAll, k)]
                   /\ (k = KInitialLoad \/ k = KLoadStudents)).

Definition isRequest (e : event) : bool :=
  match e with
  | Request _ _ => true
  | _ => false
  end.

(** The operator asked for [action] on some record during [es]. *)
Definition requested (es : list event) (action : jsstring) : Prop :=
  exists id, Request id action ∈ es.

(** Where a toast can come from: the success of a requested action, a
    failed fetch, or the failure of a requested action. *)
Definition toastExplained (es : list event) (t : toastT) : Prop :=
  (toastType t = u16 "success"
   /\ exists action, requested es action
                     /\ toastMessage t = successMessage action)
  \/ (toastType t = u16 "error" /\ toastMessage t = fetchErrorMessage)
  \/ (toastType t = u16 "error" /\ toastMessage t = u16 "Action failed"
      /\ exists action, requested es action).

(** Every toast on screen is explained by [es], and so is every
    approval or rejection still in flight. *)
Definition explained (es : list event) (w : world) : Prop :=
  (forall t, toast w = Some t -> toastExplained es t)
  /\ (forall req action,
        (req, KHandleRequest action) ∈ inflight w -> requested es action).

End Shape.

(** ** Sample data *)

Module Samples.

#[local] Open Scope string_scope.

Definition ravi : value :=
  obj [("id", VNum 1); ("full_name", VStr (u16 "Ravi Kumar"));
       ("enrollment_no", VStr (u16 "CS101")); ("credit_score", VNum 12)].

(** No enrollment number, no score. *)
Definition anita : value :=
  obj [("id", VNum 2); ("full_name", VStr (u16 "Anita Rao"));
       ("email", VStr (u16 "anita@campus.example"))].

(** The enrollment number came as a JSON number. *)
Definition numbered : value :=
  obj [("id", VNum 3); ("full_name", VStr (u16 "Ravi Kumar"));
       ("enrollment_no", VNum 101)].

(** A pending hostel request, and a hostel already assigned. *)
Definition meera : value :=
  obj [("id", VNum 4); ("full_name", VStr (u16 "Meera Nair"));
       ("enrollment_no", VStr (u16 "EE204")); ("credit_score", VNum (-2));
       ("hostel", VStr (u16 "H1")); ("room_no", VNum 12);
       ("requested_hostel", VStr (u16 "H3"))].

(** The name came as a JSON number. *)
Definition unnamed : value :=
  obj [("id", VNum 5); ("full_name", VNum 42)].

(** Space, tab, space. *)
Definition blanks : jsstring := [32; 9; 32]%N.

End Samples.

(** * Properties *)

(** ** Strings *)

Import Filter.

Lemma startsWith_prefix (s t : jsstring) :
  startsWith s t = true <-> exists post, s = t ++ post.
Proof.
  revert s; induction t as [|d t IH]; intros s; simpl.
  - split; [intros _; now exists s | reflexivity].
  - destruct s as [|c s].
    + split; [discriminate | intros [post H]; discriminate].
    + rewrite andb_true_iff, N.eqb_eq, IH. split.
      * intros [-> [post ->]]. now exists post.
      * intros [post H]. injection H as -> ->. split; [reflexivity | now exists post].
Qed.

Lemma includes_substring (s t : jsstring) :
  includes s t = true <-> substring t s.
Proof.
  unfold substring. induction s as [|c s IH].
  - simpl. rewrite orb_false_r, startsWith_prefix. split.
    + intros [post H]. now exists [], post.
    + intros [pre [post H]]. destruct pre; simpl in H; [now exists post | discriminate].
  - cbn [includes]. rewrite orb_true_iff, startsWith_prefix, IH. split.
    + intros [[post H] | [pre [post H]]].
      * now exists [], post.
      * exists (c :: pre), post. simpl. now rewrite H.
    + intros [pre [post H]]. destruct pre as [|c' pre]; simpl in H.
      * left. now exists post.
      * right. injection H as _ H. now exists pre, post.
Qed.

Lemma includes_not_substring (s t : jsstring) :
  includes s t = false <-> ~ substring t s.
Proof.
  rewrite <- includes_substring. destruct (includes s t); split; congruence.
Qed.

Lemma trimStart_blank (s : jsstring) :
  forallb isWhiteSpace s = true -> trimStart s = [].
Proof.
  induction s as [|c s IH]; simpl; [reflexivity|].
  rewrite andb_true_iff. intros [Hc Hs]. rewrite Hc. auto.
Qed.

Lemma trim_blank (s : jsstring) :
  forallb isWhiteSpace s = true -> trim s = [].
Proof.
  intros H. unfold trim, trimEnd. now rewrite (trimStart_blank s H).
Qed.

Lemma asciiLower_blank (s : jsstring) :
  forallb isWhiteSpace s = true ->
  forallb isWhiteSpace (asciiLower s) = true.
Proof.
  unfold asciiLower. induction s as [|c s IH]; simpl; [reflexivity|].
  rewrite !andb_true_iff. intros [Hc Hs]. split; [|auto].
  unfold asciiLowerUnit.
  destruct ((65 <=? c)%N && (c <=? 90)%N) eqn:E; [|exact Hc].
  apply andb_true_iff in E as [E1 E2].
  apply N.leb_le in E1, E2.
  unfold isWhiteSpace in Hc.
  repeat (apply orb_true_iff in Hc as [Hc|Hc]);
    repeat (apply andb_true_iff in Hc as [? ?]);
    repeat match goal with
           | H : (_ <=? _)%N = true |- _ => apply N.leb_le in H
           | H : (_ =? _)%N = true |- _ => apply N.eqb_eq in H
           end; lia.
Qed.

(** ** The filter *)

Lemma Filtered_sublist {A : Type} (P : A -> Prop) (l r : list A) :
  Filtered P l r -> sublist r l.
Proof.
  induction 1; [constructor | now constructor | now constructor].
Qed.

Lemma Filtered_elem_of {A : Type} (P : A -> Prop) (l r : list A) :
  Filtered P l r -> forall a, a ∈ r <-> a ∈ l /\ P a.
Proof.
  induction 1 as [|x l r Hx _ IH|x l r Hx _ IH]; intros a.
  - split; [intros Ha; inversion Ha | intros [Ha _]; inversion Ha].
  - rewrite !elem_of_cons, IH. split.
    + intros [->|[? ?]]; auto.
    + intros [[->|?] ?]; auto.
  - rewrite elem_of_cons, IH. split.
    + intros [? ?]; auto.
    + intros [[->|?] ?]; [contradiction | auto].
Qed.

Lemma filterM_sublist (f : value -> completion bool) (l out : list value) :
  filterM f l = Normal out -> sublist out l.
Proof.
  revert out; induction l as [|x xs IH]; simpl; intros out H.
  - injection H as <-. constructor.
  - destruct (f x) as [b|]; simpl in H; [|discriminate].
    destruct (filterM f xs) as [r|]; simpl in H; [|discriminate].
    injection H as <-. specialize (IH r eq_refl).
    destruct b; now constructor.
Qed.

Lemma filterM_fixed (f : value -> completion bool) (l out : list value) :
  filterM f l = Normal out -> filterM f out = Normal out.
Proof.
  revert out; induction l as [|x xs IH]; simpl; intros out H.
  - now injection H as <-.
  - destruct (f x) as [b|] eqn:Hx; simpl in H; [|discriminate].
    destruct (filterM f xs) as [r|]; simpl in H; [|discriminate].
    injection H as <-. specialize (IH r eq_refl).
    destruct b; [|exact IH].
    simpl. rewrite Hx. simpl. now rewrite IH.
Qed.

Section FilterContract.

Variable toLowerCase : jsstring -> jsstring.

Lemma logicalOr_textual (v : value) :
  textual v = true -> logicalOr v (VStr []) = VStr (textOf v).
Proof.
  unfold logicalOr. destruct v as [| |b|n|s|?|?]; simpl; try reflexivity;
    try discriminate.
  - destruct b; [discriminate | reflexivity].
  - destruct (n =? 0); [reflexivity | discriminate].
  - destruct s; reflexivity.
Qed.

Lemma getProp_readable (s : value) (k : jsstring) :
  readable s = true -> getProp s k = Normal (field s k).
Proof. destruct s; simpl; intros H; try reflexivity; discriminate. Qed.

(** On a readable record the callback returns, and says whether the
    substring rule holds. *)
Lemma matchesTerm_readable (term : jsstring) (s : value) :
  readable s = true ->
  exists b, matchesTerm toLowerCase term s = Normal b
            /\ (b = true <-> keeps toLowerCase term s).
Proof.
  intros Hs. unfold matchesTerm, keeps.
  rewrite !(getProp_readable s _ Hs). simpl.
  assert (textual (field s (u16 "full_name")) = true
          /\ textual (field s (u16 "enrollment_no")) = true) as [Hn He].
  { destruct s; try discriminate; simpl in Hs |- *;
      try (split; reflexivity); now apply andb_true_iff in Hs. }
  rewrite (logicalOr_textual _ Hn). simpl.
  destruct (includes _ term) eqn:E1.
  - exists true. split; [reflexivity|]. split; [|reflexivity].
    intros _. left. now apply includes_substring.
  - simpl. rewrite (logicalOr_textual _ He). simpl.
    eexists. split; [reflexivity|].
    rewrite includes_substring. apply includes_not_substring in E1.
    tauto.
Qed.

Lemma filterM_readable (term : jsstring) (l : list value) :
  forallb readable l = true ->
  exists out, filterM (matchesTerm toLowerCase term) l = Normal out
              /\ Filtered (keeps toLowerCase term) l out.
Proof.
  induction l as [|x xs IH]; simpl.
  - intros _. exists []. split; [reflexivity | constructor].
  - rewrite andb_true_iff. intros [Hx Hxs].
    destruct (matchesTerm_readable term x Hx) as [b [-> Hb]].
    destruct (IH Hxs) as [r [-> Hr]]. simpl.
    eexists. split; [reflexivity|].
    destruct b.
    + apply Filtered_keep; [now apply Hb | exact Hr].
    + apply Filtered_skip; [|exact Hr]. intros Hk. apply Hb in Hk. discriminate.
Qed.

Lemma Filtered_all {A : Type} (P : A -> Prop) (l : list A) :
  (forall a, P a) -> Filtered P l l.
Proof. intros HP. induction l; constructor; auto. Qed.

Lemma substring_empty (s : jsstring) : substring [] s.
Proof. now exists [], s. Qed.

(** C1 (amended): for every list of readable records and every search
    term, the filter returns normally; its result keeps, in order and
    with multiplicity, exactly the records for which the lower-cased,
    trimmed term is a substring of the lower-cased name or of the
    lower-cased enrollment number (a missing field counting as the
    empty string); in particular it is a sublist of the input. *)
Theorem filteredStudents_contract (students : list value)
  (searchTerm : jsstring) :
  forallb readable students = true ->
  let term := trim (toLowerCase searchTerm) in
  exists out,
    filteredStudents toLowerCase students searchTerm = Normal out
    /\ Filtered (keeps toLowerCase term) students out
    /\ sublist out students
    /\ forall s, s ∈ out <-> s ∈ students /\ keeps toLowerCase term s.
Proof.
  intros Hr term.
  assert (exists out,
    filteredStudents toLowerCase students searchTerm = Normal out
    /\ Filtered (keeps toLowerCase term) students out) as [out [E F]].
  { unfold filteredStudents. fold term.
    destruct term as [|c t] eqn:Et; simpl.
    - exists students. split; [reflexivity|].
      apply Filtered_all. intros a. left. apply substring_empty.
    - apply filterM_readable, Hr. }
  exists out. split; [exact E|]. split; [exact F|]. split.
  - exact (Filtered_sublist _ _ _ F).
  - exact (Filtered_elem_of _ _ _ F).
Qed.

(** Whatever the records look like, a result is a sublist of the
    input. *)
Lemma filteredStudents_sublist (students out : list value)
  (searchTerm : jsstring) :
  filteredStudents toLowerCase students searchTerm = Normal out ->
  sublist out students.
Proof.
  unfold filteredStudents.
  destruct (negb _); [intros H; now injection H as <- |].
  apply filterM_sublist.
Qed.

Lemma filteredStudents_empty_term (students : list value)
  (searchTerm : jsstring) :
  trim (toLowerCase searchTerm) = [] ->
  filteredStudents toLowerCase students searchTerm = Normal students.
Proof. intros H. unfold filteredStudents. now rewrite H. Qed.

(** C9: applying the filter to its own result, with the same term,
    returns that result. *)
Theorem filteredStudents_idempotent (students out : list value)
  (searchTerm : jsstring) :
  filteredStudents toLowerCase students searchTerm = Normal out ->
  filteredStudents toLowerCase out searchTerm = Normal out.
Proof.
  unfold filteredStudents.
  destruct (negb _); [reflexivity|].
  apply filterM_fixed.
Qed.

(** The case mapping has nothing to change in white space. *)
Hypothesis toLowerCase_blank : forall s,
  forallb isWhiteSpace s = true ->
  forallb isWhiteSpace (toLowerCase s) = true.

(** C6: an empty or all-white-space search term gives back the whole
    list. *)
Theorem filteredStudents_blank_term (students : list value)
  (searchTerm : jsstring) :
  forallb isWhiteSpace searchTerm = true ->
  filteredStudents toLowerCase students searchTerm = Normal students.
Proof.
  intros H. apply filteredStudents_empty_term, trim_blank,
    toLowerCase_blank, H.
Qed.

End FilterContract.

Import Samples.

(** The example of the specification: "ravi" and "cs1" both find the
    student named "Ravi Kumar" with enrollment number "CS101". *)
Example search_ravi :
  filteredStudents asciiLower [anita; ravi] (u16 "ravi") = Normal [ravi]
  /\ filteredStudents asciiLower [anita; ravi] (u16 "cs1") = Normal [ravi].
Proof. split; vm_compute; reflexivity. Qed.

Lemma filteredStudents_contract_witness :
  exists out,
    filteredStudents asciiLower [anita; ravi] (u16 " RAVI ") = Normal out
    /\ Filtered (keeps asciiLower (trim (asciiLower (u16 " RAVI "))))
         [anita; ravi] out
    /\ sublist out [anita; ravi]
    /\ forall s, s ∈ out <->
         s ∈ [anita; ravi]
         /\ keeps asciiLower (trim (asciiLower (u16 " RAVI "))) s.
Proof.
  apply (filteredStudents_contract asciiLower [anita; ravi] (u16 " RAVI ")).
  vm_compute. reflexivity.
Defined.

(** C1 as stated fails: a record whose enrollment number is a number
    makes the callback call [toLowerCase] on a number. *)
Lemma filteredStudents_throws :
  filteredStudents asciiLower [numbered] (u16 "cs") = Throw TypeError.
Proof. vm_compute. reflexivity. Qed.

Lemma filteredStudents_idempotent_witness :
  filteredStudents asciiLower [ravi] (u16 "ravi") = Normal [ravi].
Proof.
  apply (filteredStudents_idempotent asciiLower [anita; ravi] [ravi]
           (u16 "ravi")).
  vm_compute. reflexivity.
Defined.

Lemma filteredStudents_blank_term_witness :
  filteredStudents asciiLower [anita; ravi] blanks = Normal [anita; ravi].
Proof.
  apply (filteredStudents_blank_term asciiLower asciiLower_blank
           [anita; ravi] blanks).
  vm_compute. reflexivity.
Defined.

(** ** The trust badge *)

Import Trust.

Section TrustBadge.

Variable coerce : value -> num.

Lemma tierColor_inj (t t' : tier) : tierColor t = tierColor t' -> t = t'.
Proof. destruct t, t'; intros H; try reflexivity; vm_compute in H; discriminate. Qed.

Lemma getTrustColor_number (n : Z) :
  getTrustColor coerce (VNum n) =
  if 10 <=? n then green else if 5 <=? n then blue
  else if 0 <=? n then yellow else red.
Proof. reflexivity. Qed.

(** C8: an integer score gets the colour of a tier exactly when it
    lies within the thresholds of that tier, and it lies in exactly
    one tier: 10 and above is the highest, 5 to 9 the middle one,
    0 to 4 the low one, below 0 flagged. *)
Theorem getTrustColor_tiers (score : Z) :
  (forall t, getTrustColor coerce (VNum score) = tierColor t
             <-> InTier t score)
  /\ exists t, InTier t score /\ forall t', InTier t' score -> t' = t.
Proof.
  assert (forall t, getTrustColor coerce (VNum score) = tierColor t
                    <-> InTier t score) as Hiff.
  { intros t. rewrite getTrustColor_number. split.
    - intros H.
      destruct (Z.leb_spec 10 score);
        [|destruct (Z.leb_spec 5 score);
          [|destruct (Z.leb_spec 0 score)]];
        [apply (tierColor_inj Highest) in H
        |apply (tierColor_inj Mid) in H
        |apply (tierColor_inj Low) in H
        |apply (tierColor_inj Flagged) in H];
        subst t; simpl; lia.
    - intros H.
      destruct t; simpl in H;
        destruct (Z.leb_spec 10 score); try lia;
        destruct (Z.leb_spec 5 score); try lia;
        destruct (Z.leb_spec 0 score); try lia; reflexivity. }
  split; [exact Hiff|].
  assert (exists t, getTrustColor coerce (VNum score) = tierColor t)
    as [t Ht].
  { rewrite getTrustColor_number.
    destruct (10 <=? score); [now exists Highest|].
    destruct (5 <=? score); [now exists Mid|].
    destruct (0 <=? score); [now exists Low | now exists Flagged]. }
  exists t. split; [now apply Hiff|].
  intros t' Ht'. apply Hiff in Ht'.
  apply tierColor_inj. congruence.
Qed.

(** C10: when the record has no score ([undefined] or [null]), both
    badges are labelled 0 and take the low-tier colour, and the row
    badge carries the shield; the row badge carries the warning only
    when the score is present and numerically below 0; the card badge
    has no icon. *)
Theorem badge_of_score (s score : value) :
  getProp s (u16 "credit_score") = Normal score ->
  exists d m,
    desktopBadge coerce s = Normal d /\ mobileBadge coerce s = Normal m
    /\ (score = VUndefined \/ score = VNull ->
        d = Badge (tierColor Low) (Some ShieldCheck) (VNum 0)
        /\ m = Badge (tierColor Low) None (VNum 0))
    /\ (badgeIcon d = Some AlertTriangle <->
        exists n, ToNumber coerce score = Num n /\ n < 0)
    /\ (badgeIcon d = Some AlertTriangle ->
        score <> VUndefined /\ score <> VNull)
    /\ badgeIcon m <> Some AlertTriangle.
Proof.
  intros H. unfold desktopBadge, mobileBadge. rewrite H. simpl.
  eexists _, _. split; [reflexivity|]. split; [reflexivity|]. simpl.
  assert (ltNum coerce score 0 = true <->
          exists n, ToNumber coerce score = Num n /\ n < 0) as Hlt.
  { unfold ltNum. destruct (ToNumber coerce score) as [|n].
    - split; [discriminate | intros [n [E _]]; discriminate].
    - rewrite Z.ltb_lt. split.
      + intros Hn. now exists n.
      + intros [n' [E Hn]]. now injection E as ->. }
  split; [|split; [|split]].
  - intros [->| ->]; split; reflexivity.
  - rewrite <- Hlt. destruct (ltNum coerce score 0); split;
      congruence.
  - intros Hi. split; intros ->; discriminate.
  - discriminate.
Qed.

End TrustBadge.

Lemma badge_of_score_witness :
  exists d m,
    desktopBadge (fun _ => NaN) anita = Normal d
    /\ mobileBadge (fun _ => NaN) anita = Normal m
    /\ (VUndefined = VUndefined \/ VUndefined = VNull ->
        d = Badge (tierColor Low) (Some ShieldCheck) (VNum 0)
        /\ m = Badge (tierColor Low) None (VNum 0))
    /\ (badgeIcon d = Some AlertTriangle <->
        exists n, ToNumber (fun _ => NaN) VUndefined = Num n /\ n < 0)
    /\ (badgeIcon d = Some AlertTriangle ->
        VUndefined <> VUndefined /\ VUndefined <> VNull)
    /\ badgeIcon m <> Some AlertTriangle.
Proof.
  apply (badge_of_score (fun _ => NaN) anita VUndefined).
  vm_compute. reflexivity.
Defined.

(** A negative score shows the warning in the row and red in both. *)
Example badge_negative :
  desktopBadge (fun _ => NaN) (obj [("credit_score"%string, VNum (-3))])
  = Normal (Badge red (Some AlertTriangle) (VNum (-3)))
  /\ mobileBadge (fun _ => NaN) (obj [("credit_score"%string, VNum (-3))])
     = Normal (Badge red None (VNum (-3))).
Proof. split; vm_compute; reflexivity. Qed.

(** ** The page *)

Import Page.

(** *** What [showToast] touches *)

Lemma clearToastTimer_frame (t : option toastT) (w : world) :
  let w' := clearToastTimer t w in
  students w' = students w /\ loading w' = loading w
  /\ searchTerm w' = searchTerm w /\ toast w' = toast w
  /\ isMounted w' = isMounted w /\ now w' = now w
  /\ nextTimer w' = nextTimer w /\ inflight w' = inflight w.
Proof.
  destruct t as [prev|]; simpl; [|tauto].
  destruct (negb (toast_id prev =? 0)); simpl; tauto.
Qed.

Lemma showToast_frame (type message : jsstring) (w : world) :
  let w' := showToast type message w in
  students w' = students w /\ loading w' = loading w
  /\ searchTerm w' = searchTerm w /\ isMounted w' = isMounted w
  /\ now w' = now w /\ inflight w' = inflight w
  /\ nextTimer w' = nextTimer w + 1
  /\ toast w' = Some (Toast type message (nextTimer w)).
Proof.
  pose proof (clearToastTimer_frame (toast w) w) as H. simpl in H.
  unfold showToast. simpl. intuition congruence.
Qed.

Lemma clearToastTimer_timers (w : world) :
  toastInv w -> timers (clearToastTimer (toast w) w) = [].
Proof.
  intros [_ H]. destruct (toast w) as [t|]; simpl; [|exact H].
  destruct H as [Hid [d [_ Ht]]].
  replace (toast_id t =? 0) with false by (symmetry; apply Z.eqb_neq; lia).
  simpl. rewrite Ht. simpl. now rewrite Z.eqb_refl.
Qed.

Lemma showToast_timers (type message : jsstring) (w : world) :
  toastInv w ->
  timers (showToast type message w) = [(nextTimer w, now w + TOAST_DELAY)].
Proof.
  intros H. pose proof (clearToastTimer_frame (toast w) w) as F.
  simpl in F. unfold showToast. simpl.
  rewrite (clearToastTimer_timers w H).
  destruct F as (_ & _ & _ & _ & _ & -> & -> & _). reflexivity.
Qed.

Lemma showToast_inv (type message : jsstring) (w : world) :
  toastInv w -> toastInv (showToast type message w).
Proof.
  intros H. pose proof (showToast_frame type message w) as F.
  cbv zeta in F. destruct F as (_ & _ & _ & _ & Hnow & _ & Hnext & Htoast).
  unfold toastInv. rewrite Hnext, Htoast, Hnow, (showToast_timers _ _ _ H).
  destruct H as [Hpos _]. simpl. split; [lia|]. split; [lia|].
  exists (now w + TOAST_DELAY). unfold TOAST_DELAY. split; [lia|reflexivity].
Qed.

(** *** The timer invariant along every run *)

Lemma loadStudents_inv (w : world) : toastInv w -> toastInv (loadStudents w).
Proof. intros H. exact H. Qed.

Lemma loadStudentsResume_inv (r : response) (w : world) :
  toastInv w -> toastInv (loadStudentsResume r w).
Proof.
  intros H. destruct r as [data|]; [exact H|].
  apply (showToast_inv (u16 "error") fetchErrorMessage
           (consoleError fetchErrorLog w)), H.
Qed.

Lemma initialLoadResume_inv (r : response) (w : world) :
  toastInv w -> toastInv (initialLoadResume r w).
Proof.
  intros H. unfold initialLoadResume.
  destruct (isMounted w) eqn:E.
  - destruct r as [data|].
    + simpl. rewrite E. exact H.
    + pose proof (showToast_frame (u16 "error") fetchErrorMessage
                    (consoleError fetchErrorLog w)) as F.
      cbv zeta in F. destruct F as (_ & _ & _ & -> & _).
      simpl isMounted. rewrite E.
      apply (showToast_inv (u16 "error") fetchErrorMessage
               (consoleError fetchErrorLog w)), H.
  - destruct r; rewrite E; exact H.
Qed.

Lemma handleRequestResume_inv (action : jsstring) (r : response) (w : world) :
  toastInv w -> toastInv (handleRequestResume action r w).
Proof.
  intros H. destruct r as [data|]; simpl.
  - apply loadStudents_inv, showToast_inv, H.
  - apply showToast_inv, H.
Qed.

Lemma resume_inv (k : kont) (r : response) (w : world) :
  toastInv w -> toastInv (resume k r w).
Proof.
  destruct k; simpl;
    [apply initialLoadResume_inv | apply loadStudentsResume_inv
    | apply handleRequestResume_inv].
Qed.

Lemma respond_inv (i : nat) (r : response) (w : world) :
  toastInv w -> toastInv (respond i r w).
Proof.
  intros H. unfold respond. destruct (inflight w !! i) as [[req k]|]; [|exact H].
  apply resume_inv, H.
Qed.

Lemma advance_inv (dt : Z) (w : world) : toastInv w -> toastInv (advance dt w).
Proof.
  intros [Hpos H]. unfold advance.
  destruct (Z.leb_spec 0 dt) as [Hdt|]; [|now split].
  unfold toastInv. destruct (toast w) as [t|] eqn:Et.
  - destruct H as [Hid [d [Hd Ht]]]. simpl. rewrite Ht. simpl.
    destruct (Z.leb_spec d (now w + dt)); simpl.
    + rewrite Z.eqb_refl. simpl. now split.
    + split; [exact Hpos|]. split; [exact Hid|].
      exists d. split; [lia | reflexivity].
  - simpl. rewrite H. simpl. now split.
Qed.

Lemma unmount_inv (w : world) : toastInv w -> toastInv (unmount w).
Proof. intros H. exact H. Qed.

Lemma step_inv (w : world) (e : event) : toastInv w -> toastInv (step w e).
Proof.
  intros H. destruct e as [|s|id action|i r|dt|]; simpl.
  - unfold clickRefresh. destruct (loading w); exact H.
  - exact H.
  - exact H.
  - apply respond_inv, H.
  - apply advance_inv, H.
  - apply unmount_inv, H.
Qed.

Lemma run_inv (es : list event) (w : world) :
  toastInv w -> toastInv (run es w).
Proof.
  revert w. induction es as [|e es IH]; intros w H; [exact H|].
  apply IH, step_inv, H.
Qed.

Lemma showAll_inv (calls : list (jsstring * jsstring)) (w : world) :
  toastInv w -> toastInv (showAll calls w).
Proof.
  revert w. induction calls as [|c calls IH]; intros w H; [exact H|].
  apply IH, showToast_inv, H.
Qed.

Lemma initial_inv : toastInv initial.
Proof. split; [reflexivity | reflexivity]. Qed.

Lemma toastInv_timers (w : world) :
  toastInv w ->
  (length (timers w) <= 1)%nat
  /\ match toast w with
     | None => timers w = []
     | Some t => exists d, timers w = [(toast_id t, d)]
     end.
Proof.
  intros [_ H]. destruct (toast w) as [t|].
  - destruct H as [_ [d [_ ->]]]. split; [simpl; lia | now exists d].
  - rewrite H. split; [simpl; lia | reflexivity].
Qed.

(** *** Traces and calls in flight *)

Lemma clearToastTimer_trace (t : option toastT) (w : world) :
  trace (clearToastTimer t w) = trace w ++ clearEffects t.
Proof.
  destruct t as [prev|]; simpl; [|now rewrite app_nil_r].
  destruct (negb (toast_id prev =? 0)); simpl;
    [reflexivity | now rewrite app_nil_r].
Qed.

Lemma showToast_trace (type message : jsstring) (w : world) :
  trace (showToast type message w) =
  trace w ++ clearEffects (toast w)
  ++ [SetTimeout (nextTimer w) TOAST_DELAY;
      SetToast (Some (Toast type message (nextTimer w)))].
Proof.
  pose proof (clearToastTimer_frame (toast w) w) as F. cbv zeta in F.
  destruct F as (_ & _ & _ & _ & _ & _ & Hn & _).
  unfold showToast. simpl. rewrite clearToastTimer_trace, Hn.
  now rewrite <- !app_assoc.
Qed.

Lemma clearEffects_inv (w : world) (prev : toastT) :
  toastInv w -> toast w = Some prev ->
  clearEffects (toast w) = [ClearTimeout (toast_id prev)].
Proof.
  intros [_ H] E. rewrite E in H |- *. destruct H as [Hid _]. simpl.
  replace (toast_id prev =? 0) with false by (symmetry; apply Z.eqb_neq; lia).
  reflexivity.
Qed.

Lemma refreshCalls_app (tr tr' : list effect) :
  refreshCalls (tr ++ tr') = (refreshCalls tr + refreshCalls tr')%nat.
Proof. unfold refreshCalls. now rewrite List.filter_app, length_app. Qed.

Lemma listUpdates_app (tr tr' : list effect) :
  listUpdates (tr ++ tr') = (listUpdates tr + listUpdates tr')%nat.
Proof. unfold listUpdates. now rewrite List.filter_app, length_app. Qed.

Lemma clearEffects_counts (t : option toastT) :
  refreshCalls (clearEffects t) = 0%nat /\ listUpdates (clearEffects t) = 0%nat.
Proof.
  destruct t as [prev|]; simpl; [|now split].
  destruct (negb (toast_id prev =? 0)); now split.
Qed.

Lemma showToast_counts (type message : jsstring) (w : world) :
  refreshCalls (trace (showToast type message w)) = refreshCalls (trace w)
  /\ listUpdates (trace (showToast type message w)) = listUpdates (trace w).
Proof.
  rewrite showToast_trace, !refreshCalls_app, !listUpdates_app.
  destruct (clearEffects_counts (toast w)) as [-> ->].
  change (refreshCalls [SetTimeout (nextTimer w) TOAST_DELAY;
            SetToast (Some (Toast type message (nextTimer w)))]) with 0%nat.
  change (listUpdates [SetTimeout (nextTimer w) TOAST_DELAY;
            SetToast (Some (Toast type message (nextTimer w)))]) with 0%nat.
  rewrite !Nat.add_0_r. split; reflexivity.
Qed.

(** The call issued last settles: its continuation runs in the world
    as the call left it. *)
Lemma respond_issue (req : request) (k : kont) (r : response) (w : world) :
  respond (length (inflight w)) r (issue req k w)
  = resume k r (emit (ApiCall req) w).
Proof.
  unfold respond, issue. simpl.
  rewrite (list_lookup_middle (inflight w) [] (req, k) _ eq_refl).
  rewrite delete_middle, app_nil_r. destruct w; reflexivity.
Qed.

Lemma respond_loadStudents (r : response) (w : world) :
  respond (length (inflight w)) r (loadStudents w)
  = loadStudentsResume r (emit (ApiCall GetAll) (setLoading true w)).
Proof. exact (respond_issue GetAll KLoadStudents r (setLoading true w)). Qed.

(** *** The liveness flag *)

Lemma fireDue_isMounted (ts : list (Z * Z)) (w : world) :
  isMounted (fireDue ts w) = isMounted w.
Proof.
  revert w. induction ts as [|[id d] ts IH]; intros w; simpl; [reflexivity|].
  destruct (d <=? now w); rewrite IH; reflexivity.
Qed.

Lemma initialLoadResume_unmounted (r : response) (w : world) :
  isMounted w = false -> initialLoadResume r w = w.
Proof.
  intros H. unfold initialLoadResume. destruct r; rewrite H; simpl;
    rewrite H; reflexivity.
Qed.

Lemma showToast_isMounted (type message : jsstring) (w : world) :
  isMounted (showToast type message w) = isMounted w.
Proof. apply (showToast_frame type message w). Qed.

Lemma resume_isMounted (k : kont) (r : response) (w : world) :
  isMounted (resume k r w) = isMounted w.
Proof.
  destruct k as [| |action]; simpl.
  - destruct (isMounted w) eqn:E;
      [|now rewrite (initialLoadResume_unmounted r w E)].
    unfold initialLoadResume. rewrite E.
    destruct r as [data|].
    + change (isMounted (setStudents data w)) with (isMounted w).
      rewrite E. exact E.
    + set (w1 := showToast _ _ _).
      assert (isMounted w1 = true) as E1
        by (unfold w1; rewrite showToast_isMounted; exact E).
      rewrite E1. exact E1.
  - destruct r as [data|]; [reflexivity|].
    exact (showToast_isMounted (u16 "error") fetchErrorMessage
             (consoleError fetchErrorLog w)).
  - destruct r as [data|].
    + exact (showToast_isMounted (u16 "success") (successMessage action) w).
    + exact (showToast_isMounted (u16 "error") (u16 "Action failed") w).
Qed.

Lemma step_unmounted (w : world) (e : event) :
  isMounted w = false -> isMounted (step w e) = false.
Proof.
  intros H. destruct e as [|s|id action|i r|dt|]; simpl; try exact H.
  - unfold clickRefresh. destruct (loading w); exact H.
  - unfold respond. destruct (inflight w !! i) as [[req k]|]; [|exact H].
    rewrite resume_isMounted. exact H.
  - unfold advance. destruct (0 <=? dt); [|exact H].
    rewrite fireDue_isMounted. exact H.
  - reflexivity.
Qed.

Lemma run_unmounted (es : list event) (w : world) :
  isMounted w = false -> isMounted (run es w) = false.
Proof.
  revert w. induction es as [|e es IH]; intros w H; [exact H|].
  apply IH, step_unmounted, H.
Qed.

Lemma run_app (es es' : list event) (w : world) :
  run (es ++ es') w = run es' (run es w).
Proof. apply fold_left_app. Qed.

(** *** Refresh *)

(** C2: a refresh whose fetch fails leaves the cached list as it was
    before the call, shows the error toast and clears the loading flag;
    a refresh whose fetch succeeds clears the loading flag too (and
    stores the fetched list).  The same holds in whatever world the
    response finds. *)
Theorem loadStudents_failure_keeps_list (w : world) :
  let w1 := loadStudents w in
  let failed := respond (length (inflight w)) Rejected w1 in
  (loading w1 = true /\ students w1 = students w)
  /\ (students failed = students w
      /\ toast failed
         = Some (Toast (u16 "error") fetchErrorMessage (nextTimer w))
      /\ loading failed = false)
  /\ (forall data,
        let ok := respond (length (inflight w)) (Resolved data) w1 in
        loading ok = false /\ students ok = data)
  /\ (forall r w', loading (loadStudentsResume r w') = false)
  /\ (forall w', students (loadStudentsResume Rejected w') = students w'
                 /\ toast (loadStudentsResume Rejected w')
                    = Some (Toast (u16 "error") fetchErrorMessage
                              (nextTimer w'))).
Proof.
  assert (forall w', students (loadStudentsResume Rejected w') = students w'
                     /\ toast (loadStudentsResume Rejected w')
                        = Some (Toast (u16 "error") fetchErrorMessage
                                  (nextTimer w'))) as Hfail.
  { intros w'.
    pose proof (showToast_frame (u16 "error") fetchErrorMessage
                  (consoleError fetchErrorLog w')) as F.
    cbv zeta in F. destruct F as (Hs & _ & _ & _ & _ & _ & _ & Ht).
    split; [exact Hs | exact Ht]. }
  cbv zeta. split; [split; reflexivity|].
  split; [|split; [|split]].
  - rewrite respond_loadStudents.
    destruct (Hfail (emit (ApiCall GetAll) (setLoading true w))) as [Hs Ht].
    split; [exact Hs|]. split; [exact Ht | reflexivity].
  - intros data.
    rewrite respond_loadStudents. split; reflexivity.
  - intros r w'. reflexivity.
  - exact Hfail.
Qed.

(** *** Teardown and stale responses *)

(** C3 (amended): once the component has been torn down, the response
    to the initial load changes nothing: no state is set, no timer is
    touched, nothing is logged; only the settled call leaves the calls
    in flight. *)
Theorem initial_load_stale_response (es1 es2 : list event) (i : nat)
  (req : request) (r : response) :
  let w := run (es1 ++ Unmount :: es2) initial in
  inflight w !! i = Some (req, KInitialLoad) ->
  isMounted w = false
  /\ respond i r w = setInflight (delete i (inflight w)) w.
Proof.
  intros w H.
  assert (isMounted w = false) as Hm.
  { unfold w. rewrite run_app. apply (run_unmounted es2). reflexivity. }
  split; [exact Hm|].
  unfold respond. rewrite H. simpl resume.
  apply initialLoadResume_unmounted. exact Hm.
Qed.

Lemma initial_load_stale_response_witness :
  isMounted (run ([] ++ Unmount :: []) initial) = false
  /\ respond 0 (Resolved [ravi]) (run ([] ++ Unmount :: []) initial)
     = setInflight (delete 0%nat (inflight (run ([] ++ Unmount :: []) initial)))
         (run ([] ++ Unmount :: []) initial).
Proof.
  apply (initial_load_stale_response [] [] 0 GetAll (Resolved [ravi])).
  vm_compute. reflexivity.
Defined.

(** C3 as stated fails for the manual refresh: [loadStudents] captures
    no liveness flag.  The first load has settled, the operator clicks
    refresh, and the component is torn down while that call is in
    flight; when the response arrives the continuation calls
    [setStudents] and [setLoading] all the same.  Nothing in the code
    suppresses the two calls. *)
Lemma refresh_stale_response_calls_setters :
  let w := run [Respond 0 (Resolved [ravi]); Refresh; Unmount] initial in
  let w' := respond 0 (Resolved [anita]) w in
  isMounted w = false
  /\ inflight w = [(GetAll, KLoadStudents)]
  /\ trace w' = trace w ++ [SetStudents [anita]; SetLoading false].
Proof. vm_compute. repeat split; reflexivity. Qed.

(** *** The toast and its timer *)

(** C4: after any run of the page followed by any sequence of
    [showToast] calls, at most one timeout is pending, and it is the one
    of the visible toast (none is pending without a toast); a further
    [showToast] clears the timeout of the toast it replaces before it
    arms the new one and stores the new toast; two calls in a row leave
    the second toast with exactly its own timeout pending.  Teardown,
    however, cancels nothing: it calls no [clearTimeout] and leaves the
    pending timeouts as they are.  When the initial load has failed and
    the component is torn down while the error toast is up, the timeout
    armed for that toast is still pending after the teardown, and when
    it is due its callback calls [setToast(null)]. *)
Theorem toast_single_timer (es : list event)
  (calls : list (jsstring * jsstring)) :
  let w := showAll calls (run es initial) in
  (length (timers w) <= 1)%nat
  /\ match toast w with
     | None => timers w = []
     | Some t => exists d, timers w = [(toast_id t, d)]
     end
  /\ (forall prev type message,
        toast w = Some prev ->
        trace (showToast type message w)
        = trace w ++ [ClearTimeout (toast_id prev);
                      SetTimeout (nextTimer w) TOAST_DELAY;
                      SetToast (Some (Toast type message (nextTimer w)))])
  /\ (forall type1 message1 type2 message2,
        let w2 := showToast type2 message2 (showToast type1 message1 w) in
        toast w2 = Some (Toast type2 message2 (nextTimer w + 1))
        /\ timers w2 = [(nextTimer w + 1, now w + TOAST_DELAY)])
  /\ (timers (unmount w) = timers w
      /\ trace (unmount w) = trace w ++ [SetToastQueued])
  /\ (let v := run [Respond 0 Rejected] initial in
      toast v = Some (Toast (u16 "error") fetchErrorMessage 1)
      /\ timers v = [(1, 3000)]
      /\ timers (unmount v) = [(1, 3000)]
      /\ trace (advance 3000 (unmount v))
         = trace (unmount v) ++ [SetToast None]).
Proof.
  intros w.
  assert (toastInv w) as H by apply showAll_inv, run_inv, initial_inv.
  destruct (toastInv_timers w H) as [Hlen Hown].
  split; [exact Hlen|]. split; [exact Hown|]. split; [|split; [|split]].
  - intros prev type message E.
    rewrite showToast_trace, (clearEffects_inv w prev H E). reflexivity.
  - intros type1 message1 type2 message2 w2.
    pose proof (showToast_frame type1 message1 w) as F1. cbv zeta in F1.
    destruct F1 as (_ & _ & _ & _ & Hnow & _ & Hnext & _).
    pose proof (showToast_frame type2 message2 (showToast type1 message1 w))
      as F2. cbv zeta in F2.
    destruct F2 as (_ & _ & _ & _ & _ & _ & _ & Ht).
    split.
    + unfold w2. rewrite Ht, Hnext. reflexivity.
    + unfold w2. rewrite showToast_timers by apply showToast_inv, H.
      rewrite Hnext, Hnow. reflexivity.
  - split; reflexivity.
  - vm_compute. repeat split; reflexivity.
Qed.

Lemma advance_single (dt id d : Z) (w : world) :
  0 <= dt -> timers w = [(id, d)] ->
  toast (advance dt w) = (if d <=? now w + dt then None else toast w)
  /\ timers (advance dt w) = (if d <=? now w + dt then [] else [(id, d)]).
Proof.
  intros Hdt Ht. unfold advance.
  replace (0 <=? dt) with true by (symmetry; apply Z.leb_le; exact Hdt).
  simpl. rewrite Ht. simpl.
  destruct (d <=? now w + dt); simpl.
  - rewrite Z.eqb_refl. split; reflexivity.
  - split; reflexivity.
Qed.

(** C7: in any reachable world, [showToast] makes the toast visible
    and arms one timeout, due [TOAST_DELAY] = 3 time units later; with
    no further [showToast], the toast is still visible at every moment
    before that and is gone, with no timeout pending, from that moment
    on. *)
Theorem toast_auto_dismiss (es : list event) (type message : jsstring)
  (dt : Z) :
  0 <= dt ->
  let w := run es initial in
  let w1 := showToast type message w in
  TOAST_DELAY = 3 * TIME_UNIT
  /\ toast w1 = Some (Toast type message (nextTimer w))
  /\ timers w1 = [(nextTimer w, now w + TOAST_DELAY)]
  /\ toast (advance dt w1)
     = (if dt <? TOAST_DELAY
        then Some (Toast type message (nextTimer w)) else None)
  /\ timers (advance dt w1)
     = (if dt <? TOAST_DELAY
        then [(nextTimer w, now w + TOAST_DELAY)] else []).
Proof.
  intros Hdt w w1.
  assert (toastInv w) as H by apply run_inv, initial_inv.
  pose proof (showToast_frame type message w) as F. cbv zeta in F.
  destruct F as (_ & _ & _ & _ & Hnow & _ & _ & Htoast).
  pose proof (showToast_timers type message w H) as Ht.
  fold w1 in Hnow, Htoast, Ht.
  destruct (advance_single dt _ _ w1 Hdt Ht) as [Ha Hb].
  split; [reflexivity|]. split; [exact Htoast|]. split; [exact Ht|].
  rewrite Ha, Hb, Hnow, Htoast.
  destruct (Z.ltb_spec dt TOAST_DELAY); destruct (Z.leb_spec (now w + TOAST_DELAY) (now w + dt));
    try lia; split; reflexivity.
Qed.

Lemma toast_auto_dismiss_witness :
  let w := run [Respond 0 Rejected] initial in
  let w1 := showToast (u16 "success") (u16 "Request rejected successfully") w in
  TOAST_DELAY = 3 * TIME_UNIT
  /\ toast w1
     = Some (Toast (u16 "success") (u16 "Request rejected successfully")
               (nextTimer w))
  /\ timers w1 = [(nextTimer w, now w + TOAST_DELAY)]
  /\ toast (advance 3000 w1)
     = (if 3000 <? TOAST_DELAY
        then Some (Toast (u16 "success")
                     (u16 "Request rejected successfully") (nextTimer w))
        else None)
  /\ timers (advance 3000 w1)
     = (if 3000 <? TOAST_DELAY
        then [(nextTimer w, now w + TOAST_DELAY)] else []).
Proof.
  apply (toast_auto_dismiss [Respond 0 Rejected] (u16 "success")
           (u16 "Request rejected successfully") 3000).
  lia.
Defined.

(** One millisecond short of the delay the toast is still there; at the
    delay it is gone. *)
Example toast_visible_until_deadline :
  let w1 := showToast (u16 "error") (u16 "Action failed") initial in
  toast (advance 2999 w1)
  = Some (Toast (u16 "error") (u16 "Action failed") 1)
  /\ toast (advance 3000 w1) = None
  /\ timers (advance 3000 w1) = [].
Proof. vm_compute. repeat split; reflexivity. Qed.

(** *** Approve and reject *)

Lemma respond_handleRequest (id : value) (action : jsstring) (r : response)
  (w : world) :
  respond (length (inflight w)) r (handleRequest id action w)
  = handleRequestResume action r
      (emit (ApiCall (PostManageHostel id action)) w).
Proof.
  exact (respond_issue (PostManageHostel id action) (KHandleRequest action)
           r w).
Qed.

(** C5: [handleRequest] posts the action.  When the post succeeds, the
    success toast is shown and exactly one request for the full list is
    issued, by [loadStudents]; the cached list itself is not touched.
    When the post fails, the error toast is shown, and nothing is
    requested. *)
Theorem handleRequest_outcome (id : value) (action : jsstring)
  (w : world) :
  let w1 := handleRequest id action w in
  let post := PostManageHostel id action in
  (inflight w1 = inflight w ++ [(post, KHandleRequest action)]
   /\ trace w1 = trace w ++ [ApiCall post] /\ students w1 = students w)
  /\ (forall data,
        let ok := respond (length (inflight w)) (Resolved data) w1 in
        toast ok
        = Some (Toast (u16 "success") (successMessage action) (nextTimer w))
        /\ inflight ok = inflight w ++ [(GetAll, KLoadStudents)]
        /\ refreshCalls (trace ok) = S (refreshCalls (trace w1))
        /\ loading ok = true
        /\ students ok = students w
        /\ listUpdates (trace ok) = listUpdates (trace w1))
  /\ (let failed := respond (length (inflight w)) Rejected w1 in
      toast failed
      = Some (Toast (u16 "error") (u16 "Action failed") (nextTimer w))
      /\ inflight failed = inflight w
      /\ refreshCalls (trace failed) = refreshCalls (trace w1)
      /\ students failed = students w
      /\ listUpdates (trace failed) = listUpdates (trace w1)).
Proof.
  cbv zeta. split; [repeat split; reflexivity|].
  set (x := emit (ApiCall (PostManageHostel id action)) w).
  split.
  - intros data. rewrite respond_handleRequest. fold x.
    pose proof (showToast_frame (u16 "success") (successMessage action) x)
      as F. cbv zeta in F.
    destruct F as (Hs & _ & _ & _ & _ & Hi & _ & Ht).
    destruct (showToast_counts (u16 "success") (successMessage action) x)
      as [Hr Hl].
    unfold handleRequestResume.
    set (y := showToast (u16 "success") (successMessage action) x) in *.
    change (toast (loadStudents y)) with (toast y).
    change (inflight (loadStudents y))
      with (inflight y ++ [(GetAll, KLoadStudents)]).
    change (students (loadStudents y)) with (students y).
    change (trace (loadStudents y))
      with ((trace y ++ [SetLoading true]) ++ [ApiCall GetAll]).
    rewrite Ht, Hi, Hs, !refreshCalls_app, !listUpdates_app, Hr, Hl.
    repeat split; try reflexivity.
    + change (refreshCalls [SetLoading true]) with 0%nat.
      change (refreshCalls [ApiCall GetAll]) with 1%nat.
      change (refreshCalls (trace (handleRequest id action w)))
        with (refreshCalls (trace x)). lia.
    + change (listUpdates [SetLoading true]) with 0%nat.
      change (listUpdates [ApiCall GetAll]) with 0%nat.
      change (listUpdates (trace (handleRequest id action w)))
        with (listUpdates (trace x)). lia.
  - rewrite respond_handleRequest. fold x.
    pose proof (showToast_frame (u16 "error") (u16 "Action failed") x) as F.
    cbv zeta in F. destruct F as (Hs & _ & _ & _ & _ & Hi & _ & Ht).
    destruct (showToast_counts (u16 "error") (u16 "Action failed") x)
      as [Hr Hl].
    unfold handleRequestResume.
    rewrite Ht, Hi, Hs, Hr, Hl. repeat split; reflexivity.
Qed.

(** Approving request 1 from the initial world: one post, then on
    success one refresh in flight next to the initial load. *)
Example approve_then_refresh :
  let w := respond 1 (Resolved [])
             (handleRequest (VNum 1) (u16 "approve") initial) in
  inflight w = [(GetAll, KInitialLoad); (GetAll, KLoadStudents)]
  /\ toastMessage <$> toast w = Some (u16 "Request approveed successfully")
  /\ refreshCalls (trace w) = 2%nat.
Proof. vm_compute. repeat split; reflexivity. Qed.

(** * Further properties *)

Import View Shape.

(** ** More on the filter *)

Lemma substring_trans (a b c : jsstring) :
  substring a b -> substring b c -> substring a c.
Proof.
  intros [p1 [q1 ->]] [p2 [q2 ->]].
  exists (p2 ++ p1), (q1 ++ q2). now rewrite <- !app_assoc.
Qed.

Lemma includes_weaken (s t1 t2 : jsstring) :
  substring t1 t2 -> includes s t2 = true -> includes s t1 = true.
Proof.
  rewrite !includes_substring. intros H12 H2. exact (substring_trans _ _ _ H12 H2).
Qed.

Lemma filterM_app (f : value -> completion bool) (l1 l2 : list value) :
  filterM f (l1 ++ l2)
  = (r1 ← filterM f l1; r2 ← filterM f l2; mret (r1 ++ r2)).
Proof.
  induction l1 as [|x l1 IH]; simpl.
  - destruct (filterM f l2); reflexivity.
  - destruct (f x) as [b|]; simpl; [|reflexivity].
    rewrite IH. destruct (filterM f l1) as [r1|]; simpl; [|reflexivity].
    destruct (filterM f l2) as [r2|]; simpl; [|reflexivity].
    destruct b; reflexivity.
Qed.

Lemma filterM_narrow (f1 f2 : value -> completion bool)
  (l out1 out2 : list value) :
  (forall x b, f2 x = Normal true -> f1 x = Normal b -> b = true) ->
  filterM f1 l = Normal out1 -> filterM f2 l = Normal out2 ->
  sublist out2 out1.
Proof.
  intros Hf. revert out1 out2.
  induction l as [|x l IH]; simpl; intros out1 out2 H1 H2.
  - injection H1 as <-. injection H2 as <-. constructor.
  - destruct (f1 x) as [b1|] eqn:E1; simpl in H1; [|discriminate].
    destruct (filterM f1 l) as [r1|]; simpl in H1; [|discriminate].
    destruct (f2 x) as [b2|] eqn:E2; simpl in H2; [|discriminate].
    destruct (filterM f2 l) as [r2|]; simpl in H2; [|discriminate].
    injection H1 as <-. injection H2 as <-.
    specialize (IH r1 r2 eq_refl eq_refl).
    destruct b2.
    + rewrite (Hf x b1 E2 E1). now constructor.
    + destruct b1; [now constructor | exact IH].
Qed.

Lemma filterM_throws (f : value -> completion bool) (l : list value) :
  filterM f l = Throw TypeError <-> exists x, x ∈ l /\ f x = Throw TypeError.
Proof.
  induction l as [|x l IH]; simpl.
  - split; [discriminate | intros [x [Hx _]]; inversion Hx].
  - destruct (f x) as [b|[]] eqn:E; simpl.
    + destruct (filterM f l) as [r|[]]; simpl.
      * split; [discriminate|]. intros [y [Hy Ey]].
        apply elem_of_cons in Hy as [->|Hy]; [congruence|].
        assert (@Normal (list value) r = Throw TypeError); [|discriminate].
        apply IH. now exists y.
      * split; [|reflexivity]. intros _.
        destruct (proj1 IH eq_refl) as [y [Hy Ey]].
        exists y. split; [apply elem_of_cons; now right | exact Ey].
    + split; [|reflexivity]. intros _. exists x. split; [constructor | exact E].
Qed.

Section FilterMore.

Variable toLowerCase : jsstring -> jsstring.

Lemma getProp_field (s : value) (k : jsstring) :
  nullish s = false -> getProp s k = Normal (field s k).
Proof. destruct s; simpl; intros H; try reflexivity; discriminate. Qed.

Lemma callToLowerCase_nontextual (v : value) :
  textual v = false ->
  callToLowerCase toLowerCase (logicalOr v (VStr [])) = Throw TypeError.
Proof.
  unfold logicalOr. destruct v as [| |b|n|s|?|?]; simpl; try discriminate;
    try reflexivity.
  - destruct b; [reflexivity | discriminate].
  - destruct (n =? 0); [discriminate | reflexivity].
Qed.

Lemma matchesTerm_throws (term : jsstring) (s : value) :
  matchesTerm toLowerCase term s = Throw TypeError
  <-> callbackThrows toLowerCase term s = true.
Proof.
  unfold callbackThrows. destruct (nullish s) eqn:Hs.
  - destruct s; try discriminate; simpl; split; reflexivity.
  - unfold matchesTerm. rewrite !(getProp_field s _ Hs). simpl.
    destruct (textual (field s (u16 "full_name"))) eqn:Hn; simpl.
    + rewrite (logicalOr_textual _ Hn). simpl.
      destruct (includes _ term); simpl; [split; discriminate|].
      destruct (textual (field s (u16 "enrollment_no"))) eqn:He; simpl.
      * rewrite (logicalOr_textual _ He). simpl. split; discriminate.
      * rewrite (callToLowerCase_nontextual _ He). simpl. split; reflexivity.
    + rewrite (callToLowerCase_nontextual _ Hn). simpl. split; reflexivity.
Qed.

Lemma matchesTerm_weaken (term1 term2 : jsstring) (s : value) (b : bool) :
  substring term1 term2 ->
  matchesTerm toLowerCase term2 s = Normal true ->
  matchesTerm toLowerCase term1 s = Normal b -> b = true.
Proof.
  intros H12. unfold matchesTerm.
  destruct (getProp s (u16 "full_name")) as [name|]; simpl; [|discriminate].
  destruct (callToLowerCase toLowerCase (logicalOr name (VStr [])))
    as [lname|]; simpl; [|discriminate].
  destruct (includes lname term2) eqn:E2.
  - rewrite (includes_weaken _ _ _ H12 E2). intros _ H. now injection H as <-.
  - destruct (getProp s (u16 "enrollment_no")) as [enr|]; simpl;
      [|discriminate].
    destruct (callToLowerCase toLowerCase (logicalOr enr (VStr [])))
      as [lenr|]; simpl; [|discriminate].
    intros H2 H1. injection H2 as H2.
    destruct (includes lname term1); [now injection H1 as <-|].
    injection H1 as <-. exact (includes_weaken _ _ _ H12 H2).
Qed.

(** X1: a search term that contains the previous one narrows the
    result: whenever both searches return, the new result is a sublist
    of the previous one. *)
Theorem filteredStudents_narrows (students out1 out2 : list value)
  (search1 search2 : jsstring) :
  substring (trim (toLowerCase search1)) (trim (toLowerCase search2)) ->
  filteredStudents toLowerCase students search1 = Normal out1 ->
  filteredStudents toLowerCase students search2 = Normal out2 ->
  sublist out2 out1.
Proof.
  intros H12 H1 H2.
  unfold filteredStudents in H1.
  destruct (trim (toLowerCase search1)) as [|c1 t1] eqn:E1; simpl in H1.
  - injection H1 as <-. exact (filteredStudents_sublist _ _ _ _ H2).
  - unfold filteredStudents in H2.
    destruct (trim (toLowerCase search2)) as [|c2 t2] eqn:E2; simpl in H2.
    + destruct H12 as [pre [post H12]]. destruct pre; discriminate.
    + refine (filterM_narrow _ _ _ _ _ _ H1 H2).
      intros x b. now apply matchesTerm_weaken.
Qed.

(** X2: filtering a concatenation is filtering its two parts, in
    order; the first [TypeError] of either part is the outcome. *)
Theorem filteredStudents_app (l1 l2 : list value) (search : jsstring) :
  filteredStudents toLowerCase (l1 ++ l2) search
  = (r1 ← filteredStudents toLowerCase l1 search;
     r2 ← filteredStudents toLowerCase l2 search;
     mret (r1 ++ r2)).
Proof.
  unfold filteredStudents. destruct (negb _); [reflexivity|].
  apply filterM_app.
Qed.

(** X3: the filter ends in a [TypeError] exactly when the trimmed,
    lower-cased term is not empty and the list holds a record that is
    [null] or [undefined], or whose name is neither a string nor falsy,
    or whose name does not contain the term while its enrollment number
    is neither a string nor falsy. *)
Theorem filteredStudents_throws_iff (students : list value)
  (search : jsstring) :
  let term := trim (toLowerCase search) in
  filteredStudents toLowerCase students search = Throw TypeError
  <-> term <> [] /\ existsb (callbackThrows toLowerCase term) students = true.
Proof.
  intros term. unfold filteredStudents. fold term.
  destruct term as [|c t] eqn:Et; simpl negb; cbv iota.
  - split; [discriminate | intros [H _]; contradiction].
  - rewrite filterM_throws, existsb_exists. split.
    + intros [x [Hx E]]. split; [discriminate|].
      exists x. split; [now apply list_elem_of_In | now apply matchesTerm_throws].
    + intros [_ [x [Hx E]]]. exists x.
      split; [now apply list_elem_of_In | now apply matchesTerm_throws].
Qed.

End FilterMore.

Lemma filteredStudents_narrows_witness :
  sublist [ravi] [anita; ravi; meera].
Proof.
  apply (filteredStudents_narrows asciiLower [anita; ravi; meera]
           [anita; ravi; meera] [ravi] (u16 "a") (u16 " AVI")).
  - exists [], (u16 "vi"). vm_compute. reflexivity.
  - vm_compute. reflexivity.
  - vm_compute. reflexivity.
Defined.

(** A name that matches hides a malformed enrollment number: the right
    operand of [||] is not evaluated. *)
Example numbered_found_by_name :
  filteredStudents asciiLower [numbered] (u16 "ravi") = Normal [numbered].
Proof. vm_compute. reflexivity. Qed.

(** ** More on the page *)

Lemma fireDue_frame (ts : list (Z * Z)) (w : world) :
  students (fireDue ts w) = students w /\ loading (fireDue ts w) = loading w
  /\ searchTerm (fireDue ts w) = searchTerm w
  /\ inflight (fireDue ts w) = inflight w
  /\ nextTimer (fireDue ts w) = nextTimer w
  /\ now (fireDue ts w) = now w.
Proof.
  revert w. induction ts as [|[id d] ts IH]; intros w; simpl; [tauto|].
  destruct (d <=? now w); [|apply IH].
  destruct (IH (setToast None
                  (setTimers
                     (List.filter (fun t => negb (fst t =? id)) (timers w))
                     w))) as (H1 & H2 & H3 & H4 & H5 & H6).
  rewrite H1, H2, H3, H4, H5, H6. simpl. tauto.
Qed.

Lemma advance_frame (dt : Z) (w : world) :
  students (advance dt w) = students w /\ loading (advance dt w) = loading w
  /\ searchTerm (advance dt w) = searchTerm w
  /\ inflight (advance dt w) = inflight w
  /\ nextTimer (advance dt w) = nextTimer w.
Proof.
  unfold advance. destruct (0 <=? dt); [|tauto].
  match goal with
  | |- context [fireDue ?ts ?w1] =>
      destruct (fireDue_frame ts w1) as (H1 & H2 & H3 & H4 & H5 & _)
  end.
  rewrite H1, H2, H3, H4, H5. simpl. tauto.
Qed.

Lemma unmount_frame (w : world) :
  students (unmount w) = students w /\ loading (unmount w) = loading w
  /\ inflight (unmount w) = inflight w.
Proof. repeat split; reflexivity. Qed.

Lemma initialLoadResume_mounted (r : response) (w : world) :
  isMounted w = true -> initialLoadResume r w = loadStudentsResume r w.
Proof.
  intros H. unfold initialLoadResume, loadStudentsResume. rewrite H.
  destruct r as [data|].
  - change (isMounted (setStudents data w)) with (isMounted w).
    now rewrite H.
  - set (w1 := showToast _ _ _).
    assert (isMounted w1 = true) as E
      by (unfold w1; rewrite showToast_isMounted; exact H).
    now rewrite E.
Qed.

Lemma loadStudentsResume_students (r : response) (w : world) :
  students (loadStudentsResume r w)
  = match r with Resolved data => data | Rejected => students w end.
Proof.
  destruct r as [data|]; [reflexivity|].
  apply (showToast_frame (u16 "error") fetchErrorMessage
           (consoleError fetchErrorLog w)).
Qed.

Lemma handleRequestResume_students (action : jsstring) (r : response)
  (w : world) :
  students (handleRequestResume action r w) = students w.
Proof.
  destruct r as [data|].
  - apply (showToast_frame (u16 "success") (successMessage action) w).
  - apply (showToast_frame (u16 "error") (u16 "Action failed") w).
Qed.

(** X4: while the component is mounted, the response to the initial
    load is handled exactly as the response to a manual refresh. *)
Theorem initial_load_as_refresh (r : response) (w : world) :
  isMounted w = true ->
  resume KInitialLoad r w = resume KLoadStudents r w.
Proof. apply initialLoadResume_mounted. Qed.

Lemma initial_load_as_refresh_witness :
  resume KInitialLoad Rejected initial = resume KLoadStudents Rejected initial.
Proof.
  apply (initial_load_as_refresh Rejected initial). reflexivity.
Defined.

(** X5: the cached list changes only when a fetch resolves: an event
    either leaves the list as it is, or it is the resolution of a call
    in flight that waits in [loadStudents], or in the initial load of a
    mounted component, and the list becomes the data received.  Typing
    in the search box, approving, rejecting, clicking refresh, timers
    and teardown never change it. *)
Theorem students_change_only_by_fetch (w : world) (e : event) :
  students (step w e) = students w
  \/ exists i data req k,
       e = Respond i (Resolved data)
       /\ inflight w !! i = Some (req, k)
       /\ (k = KLoadStudents \/ k = KInitialLoad /\ isMounted w = true)
       /\ students (step w e) = data.
Proof.
  destruct e as [|s|id action|i r|dt|]; simpl.
  - left. unfold clickRefresh. destruct (loading w); reflexivity.
  - left. reflexivity.
  - left. reflexivity.
  - unfold respond. destruct (inflight w !! i) as [[req k]|] eqn:E;
      [|left; reflexivity].
    set (w' := setInflight (delete i (inflight w)) w).
    destruct k as [| |action]; cbn [resume].
    + destruct (isMounted w) eqn:Em.
      * rewrite (initialLoadResume_mounted r w' Em),
          loadStudentsResume_students.
        destruct r as [data|]; [|left; reflexivity].
        right. exists i, data, req, KInitialLoad.
        split; [reflexivity|]. split; [exact E|].
        split; [right; split; reflexivity | reflexivity].
      * rewrite (initialLoadResume_unmounted r w' Em). left. reflexivity.
    + rewrite loadStudentsResume_students.
      destruct r as [data|]; [|left; reflexivity].
      right. exists i, data, req, KLoadStudents.
      split; [reflexivity|]. split; [exact E|].
      split; [left; reflexivity | reflexivity].
    + left. rewrite handleRequestResume_students. reflexivity.
  - left. apply advance_frame.
  - left. apply unmount_frame.
Qed.

(** *** One fetch at a time *)

Lemma resume_fetch_inflight (k : kont) (r : response) (w : world) :
  k = KInitialLoad \/ k = KLoadStudents ->
  inflight (resume k r w) = inflight w.
Proof.
  assert (inflight (loadStudentsResume r w) = inflight w) as Hl.
  { destruct r as [data|]; [reflexivity|].
    apply (showToast_frame (u16 "error") fetchErrorMessage
             (consoleError fetchErrorLog w)). }
  intros [-> | ->]; cbn [resume]; [|exact Hl].
  destruct (isMounted w) eqn:Em.
  - now rewrite (initialLoadResume_mounted r w Em).
  - now rewrite (initialLoadResume_unmounted r w Em).
Qed.

Lemma step_fetchGate (w : world) (e : event) :
  isRequest e = false -> fetchGate w -> fetchGate (step w e).
Proof.
  intros He H. destruct e as [|s|id action|i r|dt|]; simpl.
  - unfold clickRefresh. destruct (loading w) eqn:El; [exact H|].
    destruct H as [H | [H _]]; [|congruence].
    right. split; [reflexivity|]. exists KLoadStudents.
    split; [|now right].
    change (inflight (loadStudents w))
      with (inflight w ++ [(GetAll, KLoadStudents)]).
    now rewrite H.
  - exact H.
  - discriminate.
  - unfold respond. destruct H as [H | [Hl [k [H Hk]]]].
    + rewrite H. simpl. now left.
    + rewrite H. destruct i as [|i]; simpl; [|right; eauto].
      left. rewrite (resume_fetch_inflight k r _ Hk). reflexivity.
  - destruct (advance_frame dt w) as (_ & Hl & _ & Hi & _).
    unfold fetchGate. now rewrite Hl, Hi.
  - destruct (unmount_frame w) as (_ & Hl & Hi).
    unfold fetchGate. now rewrite Hl, Hi.
Qed.

Lemma run_fetchGate (es : list event) (w : world) :
  forallb (fun e => negb (isRequest e)) es = true ->
  fetchGate w -> fetchGate (run es w).
Proof.
  revert w. induction es as [|e es IH]; intros w Hes H; [exact H|].
  simpl in Hes. apply andb_true_iff in Hes as [He Hes].
  apply (IH _ Hes), step_fetchGate; [|exact H].
  now destruct (isRequest e).
Qed.

(** X6: as long as nothing is approved or rejected, the disabled
    refresh button keeps the fetches apart: at most one call is in
    flight, and none is while the loading flag is down. *)
Theorem refresh_button_gate (es : list event) :
  forallb (fun e => negb (isRequest e)) es = true ->
  let w := run es initial in
  (length (inflight w) <= 1)%nat /\ (loading w = false -> inflight w = []).
Proof.
  intros Hes w.
  assert (fetchGate w) as H.
  { apply run_fetchGate; [exact Hes|]. right. split; [reflexivity|].
    exists KInitialLoad. split; [reflexivity | now left]. }
  destruct H as [H | [Hl [k [H _]]]].
  - rewrite H. split; [simpl; lia | reflexivity].
  - rewrite H, Hl. split; [simpl; lia | discriminate].
Qed.

Lemma refresh_button_gate_witness :
  let w := run [Refresh; Respond 0 (Resolved [ravi]); Refresh; Refresh]
             initial in
  (length (inflight w) <= 1)%nat /\ (loading w = false -> inflight w = []).
Proof.
  apply (refresh_button_gate
           [Refresh; Respond 0 (Resolved [ravi]); Refresh; Refresh]).
  vm_compute. reflexivity.
Defined.

(** The refresh that follows an approval is not behind that gate: two
    approvals put two fetches in flight, and the first one to settle
    takes the loading flag down while the other is still under way. *)
Example approvals_overlap_refreshes :
  let w := run [Respond 0 (Resolved [meera]);
                Request (VNum 4) (u16 "approve");
                Request (VNum 4) (u16 "approve");
                Respond 0 (Resolved []); Respond 0 (Resolved [])] initial in
  inflight w = [(GetAll, KLoadStudents); (GetAll, KLoadStudents)]
  /\ loading (respond 0 (Resolved [meera]) w) = false
  /\ inflight (respond 0 (Resolved [meera]) w) = [(GetAll, KLoadStudents)].
Proof. vm_compute. repeat split; reflexivity. Qed.

(** *** Replacing a toast *)

(** X7: a toast that replaces another one gets the full delay of its
    own: whenever the first toast was shown, the second stays for
    [TOAST_DELAY] after its own [showToast] and goes then; the timer of
    the first cannot dismiss it early. *)
Theorem toast_replacement_restarts_delay (es : list event)
  (type1 message1 type2 message2 : jsstring) (dt1 dt2 : Z) :
  0 <= dt2 ->
  let w := run es initial in
  let w1 := showToast type1 message1 w in
  let w3 := showToast type2 message2 (advance dt1 w1) in
  toast (advance dt2 w3)
  = (if dt2 <? TOAST_DELAY
     then Some (Toast type2 message2 (nextTimer w + 1)) else None)
  /\ (length (timers (advance dt2 w3)) <= 1)%nat.
Proof.
  intros Hdt w w1 w3.
  assert (toastInv (advance dt1 w1)) as H2
    by apply advance_inv, showToast_inv, run_inv, initial_inv.
  pose proof (showToast_frame type1 message1 w) as F1. cbv zeta in F1.
  destruct F1 as (_ & _ & _ & _ & _ & _ & Hn1 & _). fold w1 in Hn1.
  destruct (advance_frame dt1 w1) as (_ & _ & _ & _ & Hn2).
  pose proof (showToast_frame type2 message2 (advance dt1 w1)) as F3.
  cbv zeta in F3. destruct F3 as (_ & _ & _ & _ & Hnow & _ & _ & Ht).
  pose proof (showToast_timers type2 message2 _ H2) as Hs.
  fold w3 in Hnow, Ht, Hs.
  destruct (advance_single dt2 _ _ w3 Hdt Hs) as [Ha Hb].
  rewrite Ha, Hb, Hnow, Ht, Hn2, Hn1.
  destruct (Z.ltb_spec dt2 TOAST_DELAY);
    destruct (Z.leb_spec (now (advance dt1 w1) + TOAST_DELAY)
                (now (advance dt1 w1) + dt2));
    try lia; split; simpl; (reflexivity || lia).
Qed.

Lemma toast_replacement_restarts_delay_witness :
  let w := run [] initial in
  let w1 := showToast (u16 "error") (u16 "Action failed") w in
  let w3 := showToast (u16 "success") (successMessage (u16 "reject"))
              (advance 2000 w1) in
  toast (advance 2000 w3)
  = (if 2000 <? TOAST_DELAY
     then Some (Toast (u16 "success") (successMessage (u16 "reject"))
                  (nextTimer w + 1))
     else None)
  /\ (length (timers (advance 2000 w3)) <= 1)%nat.
Proof.
  apply (toast_replacement_restarts_delay [] (u16 "error")
           (u16 "Action failed") (u16 "success")
           (successMessage (u16 "reject")) 2000 2000).
  lia.
Defined.

(** *** Where toasts come from *)

Lemma requested_snoc (es : list event) (e : event) (action : jsstring) :
  requested es action -> requested (es ++ [e]) action.
Proof. intros [id H]. exists id. apply elem_of_app. now left. Qed.

Lemma toastExplained_snoc (es : list event) (e : event) (t : toastT) :
  toastExplained es t -> toastExplained (es ++ [e]) t.
Proof.
  intros [[Ht [a [Ha Hm]]] | [H | [Ht [Hm [a Ha]]]]].
  - left. split; [exact Ht|]. exists a. split; [now apply requested_snoc | exact Hm].
  - right. left. exact H.
  - right. right. split; [exact Ht|]. split; [exact Hm|].
    exists a. now apply requested_snoc.
Qed.

Lemma fireDue_toast (ts : list (Z * Z)) (w : world) :
  toast (fireDue ts w) = toast w \/ toast (fireDue ts w) = None.
Proof.
  revert w. induction ts as [|[id d] ts IH]; intros w; simpl; [now left|].
  destruct (d <=? now w); [|apply IH].
  destruct (IH (setToast None
                  (setTimers
                     (List.filter (fun t => negb (fst t =? id)) (timers w))
                     w))) as [H | H]; right; [rewrite H; reflexivity | exact H].
Qed.

Section Provenance.

Variable es : list event.

Lemma explained_frame (w w' : world) :
  toast w' = toast w \/ toast w' = None ->
  inflight w' = inflight w ->
  explained es w -> explained es w'.
Proof.
  intros Ht Hi [H1 H2]. split.
  - intros t E. destruct Ht as [Ht | Ht]; rewrite Ht in E;
      [now apply H1 | discriminate].
  - rewrite Hi. exact H2.
Qed.

Lemma explained_showToast (type message : jsstring) (w : world) :
  (forall id, toastExplained es (Toast type message id)) ->
  explained es w -> explained es (showToast type message w).
Proof.
  intros Hnew [_ H2].
  pose proof (showToast_frame type message w) as F. cbv zeta in F.
  destruct F as (_ & _ & _ & _ & _ & Hi & _ & Ht). split.
  - intros t E. rewrite Ht in E. injection E as <-. apply Hnew.
  - rewrite Hi. exact H2.
Qed.

Lemma explained_loadStudents (w : world) :
  explained es w -> explained es (loadStudents w).
Proof.
  intros [H1 H2]. split; [exact H1|].
  intros req action Hin.
  change (inflight (loadStudents w))
    with (inflight w ++ [(GetAll, KLoadStudents)]) in Hin.
  apply elem_of_app in Hin as [Hin | Hin]; [now apply (H2 req)|].
  apply list_elem_of_singleton in Hin. discriminate.
Qed.

Lemma explained_fetch_failed (w : world) :
  explained es w ->
  explained es (showToast (u16 "error") fetchErrorMessage
               (consoleError fetchErrorLog w)).
Proof.
  intros H. apply explained_showToast; [|exact H].
  intros id. right. left. split; reflexivity.
Qed.

Lemma explained_loadStudentsResume (r : response) (w : world) :
  explained es w -> explained es (loadStudentsResume r w).
Proof.
  intros H. destruct r as [data|]; [exact H|].
  exact (explained_fetch_failed w H).
Qed.

Lemma explained_resume (k : kont) (r : response) (w : world) :
  (forall action, k = KHandleRequest action -> requested es action) ->
  explained es w -> explained es (resume k r w).
Proof.
  intros Hk H. destruct k as [| |action]; cbn [resume].
  - destruct (isMounted w) eqn:Em.
    + rewrite (initialLoadResume_mounted r w Em).
      now apply explained_loadStudentsResume.
    + now rewrite (initialLoadResume_unmounted r w Em).
  - now apply explained_loadStudentsResume.
  - specialize (Hk action eq_refl). destruct r as [data|]; simpl.
    + apply explained_loadStudents, explained_showToast; [|exact H].
      intros id. left. split; [reflexivity|]. now exists action.
    + apply explained_showToast; [|exact H].
      intros id. right. right. split; [reflexivity|].
      split; [reflexivity | now exists action].
Qed.

Lemma explained_respond (i : nat) (r : response) (w : world) :
  explained es w -> explained es (respond i r w).
Proof.
  intros H. unfold respond.
  destruct (inflight w !! i) as [[req k]|] eqn:E; [|exact H].
  apply explained_resume.
  - intros action ->. destruct H as [_ H2]. apply (H2 req).
    exact (list_elem_of_lookup_2 _ _ _ E).
  - destruct H as [H1 H2]. split; [exact H1|].
    intros req' action Hin. apply (H2 req').
    exact (elem_of_sublist _ _ _ Hin (sublist_delete _ _)).
Qed.

End Provenance.

Lemma run_explained (es : list event) : explained es (run es initial).
Proof.
  induction es as [|e es IH] using rev_ind.
  - split; [discriminate|]. intros req action Hin.
    apply list_elem_of_singleton in Hin. discriminate.
  - rewrite run_app. cbn [run fold_left].
    set (w := run es initial) in *.
    assert (explained (es ++ [e]) w) as H.
    { destruct IH as [H1 H2]. split.
      - intros t E. now apply toastExplained_snoc, H1.
      - intros req action Hin. now apply requested_snoc, (H2 req). }
    clear IH. destruct e as [|s|id action|i r|dt|]; cbn [step].
    + unfold clickRefresh. destruct (loading w); [exact H|].
      now apply explained_loadStudents.
    + exact H.
    + destruct H as [H1 H2]. split; [exact H1|].
      intros req a Hin.
      change (inflight (handleRequest id action w))
        with (inflight w
              ++ [(PostManageHostel id action, KHandleRequest action)]) in Hin.
      apply elem_of_app in Hin as [Hin | Hin]; [now apply (H2 req)|].
      apply list_elem_of_singleton in Hin. injection Hin as _ ->.
      exists id. apply elem_of_app. right. constructor.
    + now apply explained_respond.
    + refine (explained_frame _ w _ _ _ H).
      * unfold advance. destruct (0 <=? dt); [|now left].
        match goal with
        | |- context [fireDue ?ts ?w1] => exact (fireDue_toast ts w1)
        end.
      * apply advance_frame.
    + refine (explained_frame _ w _ _ _ H); [now left|].
      apply unmount_frame.
Qed.

(** X9: a toast on screen always has a cause in what happened before:
    a success toast names an action the operator asked for, an error
    toast is either the failed fetch or the failure of an action the
    operator asked for; the banner is green for the former and red for
    the latter. *)
Theorem toast_has_a_cause (es : list event) (t : toastT) :
  toast (run es initial) = Some t ->
  toastExplained es t
  /\ (toastType t = u16 "success" -> fst (toastBanner t) = u16 "#10b981")
  /\ (toastType t = u16 "error" -> fst (toastBanner t) = u16 "#ef4444").
Proof.
  intros E. split; [now apply (run_explained es)|].
  unfold toastBanner. split; intros ->; reflexivity.
Qed.

Lemma toast_has_a_cause_witness :
  toastExplained
    [Request (VNum 4) (u16 "reject"); Respond 1 (Resolved [])]
    (Toast (u16 "success") (successMessage (u16 "reject")) 1)
  /\ (u16 "success" = u16 "success" ->
      fst (toastBanner
             (Toast (u16 "success") (successMessage (u16 "reject")) 1))
      = u16 "#10b981")
  /\ (u16 "success" = u16 "error" ->
      fst (toastBanner
             (Toast (u16 "success") (successMessage (u16 "reject")) 1))
      = u16 "#ef4444").
Proof.
  apply (toast_has_a_cause
           [Request (VNum 4) (u16 "reject"); Respond 1 (Resolved [])]
           (Toast (u16 "success") (successMessage (u16 "reject")) 1)).
  vm_compute. reflexivity.
Defined.

(** ** The rendered page *)




Section Rendering.

Variable toLowerCase : jsstring -> jsstring.
Variable coerce : value -> num.




(** X11: the two layouts tell the same story: whenever the table row of
    a record renders, its card renders too, with the same key, name,
    badge colour and label, the same hostel and room (or a placeholder
    in both), and the same buttons with the same id.  The card wants
    less of the record: it does not call [charAt] on the name. *)
Theorem card_agrees_with_row (s : value) (r : tableRow) :
  desktopRow coerce s = Normal r ->
  exists c,
    mobileCard coerce s = Normal c
    /\ cardKey c = rowKey r /\ cardName c = rowName r
    /\ badgeColor (cardBadge c) = badgeColor (rowBadge r)
    /\ badgeLabel (cardBadge c) = badgeLabel (rowBadge r)
    /\ match rowHostel r, cardHostel c with
       | HostelRoom h n, HostelRoom h' n' => h = h' /\ n = n'
       | Placeholder _, Placeholder _ => True
       | _, _ => False
       end
    /\ match rowAction r with
       | Some id => exists req, cardRequest c = inr (req, id)
       | None => exists v, cardRequest c = inl v
       end.
Proof.
  intros H.
  assert (nullish s = false) as Hn.
  { destruct s; try reflexivity; discriminate. }
  revert H. unfold desktopRow, mobileCard, desktopBadge, mobileBadge, hostelOf.
  rewrite !(getProp_field s _ Hn). cbn [mbind completion_bind].
  destruct (if ToBoolean (field s (u16 "full_name"))
            then callCharAt0 (field s (u16 "full_name"))
            else mret (u16 "?")) as [a|];
    cbn [mbind completion_bind mret completion_ret]; [|discriminate].
  destruct (ToBoolean (field s (u16 "hostel")));
    cbn [mbind completion_bind mret completion_ret];
    rewrite ?(getProp_field s _ Hn);
    cbn [mbind completion_bind mret completion_ret];
    intros H; injection H as <-; eexists; (split; [reflexivity|]);
    cbn [cardKey cardName cardBadge cardHostel cardRequest rowKey rowName
         rowBadge rowHostel rowAction badgeColor badgeLabel];
    (destruct (ToBoolean (field s (u16 "requested_hostel")));
     repeat split; eauto).
Qed.

End Rendering.


(** The row of a student with a pending request, and the page that a
    search for her enrollment number gives. *)
Example meera_row :
  desktopRow (fun _ => NaN) meera
  = Normal {| rowKey := VNum 4;
              rowAvatar := u16 "M";
              rowName := VStr (u16 "Meera Nair");
              rowEmail := VUndefined;
              rowBadge := Badge red (Some AlertTriangle) (VNum (-2));
              rowEnrollment := VStr (u16 "EE204");
              rowHostel := HostelRoom (VStr (u16 "H1")) (VNum 12);
              rowAction := Some (VNum 4) |}.
Proof. vm_compute. reflexivity. Qed.

Lemma card_agrees_with_row_witness :
  exists c,
    mobileCard (fun _ => NaN) meera = Normal c
    /\ cardKey c = VNum 4 /\ cardName c = VStr (u16 "Meera Nair")
    /\ badgeColor (cardBadge c) = red
    /\ badgeLabel (cardBadge c) = VNum (-2)
    /\ match cardHostel c with
       | HostelRoom h' n' => VStr (u16 "H1") = h' /\ VNum 12 = n'
       | Placeholder _ => False
       end
    /\ exists req, cardRequest c = inr (req, VNum 4).
Proof.
  apply (card_agrees_with_row (fun _ => NaN) meera
           {| rowKey := VNum 4;
              rowAvatar := u16 "M";
              rowName := VStr (u16 "Meera Nair");
              rowEmail := VUndefined;
              rowBadge := Badge red (Some AlertTriangle) (VNum (-2));
              rowEnrollment := VStr (u16 "EE204");
              rowHostel := HostelRoom (VStr (u16 "H1")) (VNum 12);
              rowAction := Some (VNum 4) |}).
  vm_compute. reflexivity.
Defined.

(** With a blank search the filter lets every record through, and a
    name that is a number stops the render at [charAt]; while the page
    is loading no row is built and the same list renders. *)
Example unnamed_breaks_the_table :
  let w := run [Respond 0 (Resolved [unnamed])] initial in
  render asciiLower (fun _ => NaN) w = Throw TypeError
  /\ render asciiLower (fun _ => NaN) (run [Refresh] w)
     = Normal (View None [] true Spinner)
  /\ arrayMap (mobileCard (fun _ => NaN)) [unnamed]
     = Normal [Card (VNum 5) (VNum 42) (Badge yellow None (VNum 0))
                 (VStr (u16 "N/A")) (Placeholder (u16 "Not Assigned"))
                 (inl VUndefined)].
Proof. vm_compute. repeat split; reflexivity. Qed.

(** ** Icon and colour of the row badge *)

Section BadgeConsistency.

Variable coerce : value -> num.

(** X12: for a record whose score is an integer or is missing, the row
    badge is labelled with the score, or with 0 when it is missing; its
    colour is that of the tier the label lies in; its icon is the
    warning triangle exactly when the score is present and negative,
    and the shield otherwise; so the triangle comes with the flagged
    red and only with it. *)
Theorem row_icon_matches_colour (s score : value) :
  getProp s (u16 "credit_score") = Normal score ->
  (score = VUndefined \/ score = VNull \/ exists n, score = VNum n) ->
  exists b,
    desktopBadge coerce s = Normal b
    /\ badgeLabel b = VNum (scoreOrZero score)
    /\ badgeIcon b = Some (if scoreOrZero score <? 0 then AlertTriangle
                           else ShieldCheck)
    /\ (badgeIcon b = Some AlertTriangle
        <-> exists n, score = VNum n /\ n < 0)
    /\ (badgeIcon b = Some AlertTriangle <-> badgeColor b = tierColor Flagged)
    /\ exists t, InTier t (scoreOrZero score) /\ badgeColor b = tierColor t.
Proof.
  intros H Hs. unfold desktopBadge. rewrite H.
  cbn [mbind completion_bind mret completion_ret].
  set (n := scoreOrZero score).
  assert (logicalOr score (VNum 0) = VNum n
          /\ ltNum coerce score 0 = (n <? 0)
          /\ (n < 0 <-> exists k, score = VNum k /\ k < 0)) as [El [Hlt Hneg]].
  { unfold n. destruct Hs as [-> | [-> | [k ->]]]; simpl.
    - repeat split; try reflexivity; [lia | intros [k [E _]]; discriminate].
    - repeat split; try reflexivity; [lia | intros [k [E _]]; discriminate].
    - unfold logicalOr. simpl.
      split; [destruct (Z.eqb_spec k 0) as [->|]; reflexivity|].
      split; [reflexivity|]. split.
      + intros Hk. now exists k.
      + intros [k' [E Hk]]. now injection E as ->. }
  rewrite El, Hlt, getTrustColor_number.
  eexists. split; [reflexivity|].
  cbn [badgeLabel badgeIcon badgeColor].
  split; [reflexivity|]. split; [reflexivity|].
  rewrite <- Hneg.
  destruct (Z.ltb_spec n 0) as [Hn | Hn].
  - replace (10 <=? n) with false by (symmetry; apply Z.leb_gt; lia).
    replace (5 <=? n) with false by (symmetry; apply Z.leb_gt; lia).
    replace (0 <=? n) with false by (symmetry; apply Z.leb_gt; lia).
    split; [split; [intros _; exact Hn | reflexivity]|].
    split; [split; reflexivity|].
    exists Flagged. split; [exact Hn | reflexivity].
  - split; [split; [discriminate | lia]|]. split.
    + split; [discriminate|]. intros Hc. exfalso.
      destruct (10 <=? n); [apply (tierColor_inj Highest) in Hc; discriminate|].
      destruct (5 <=? n); [apply (tierColor_inj Mid) in Hc; discriminate|].
      replace (0 <=? n) with true in Hc by (symmetry; apply Z.leb_le; lia).
      apply (tierColor_inj Low) in Hc. discriminate.
    + destruct (Z.leb_spec 10 n) as [H10 | H10];
        [exists Highest; split; [exact H10 | reflexivity]|].
      destruct (Z.leb_spec 5 n) as [H5 | H5];
        [exists Mid; split; [simpl; lia | reflexivity]|].
      replace (0 <=? n) with true by (symmetry; apply Z.leb_le; lia).
      exists Low. split; [simpl; lia | reflexivity].
Qed.

End BadgeConsistency.

Lemma row_icon_matches_colour_witness :
  exists b,
    desktopBadge (fun _ => NaN) meera = Normal b
    /\ badgeLabel b = VNum (scoreOrZero (VNum (-2)))
    /\ badgeIcon b = Some (if scoreOrZero (VNum (-2)) <? 0 then AlertTriangle
                           else ShieldCheck)
    /\ (badgeIcon b = Some AlertTriangle
        <-> exists n, VNum (-2) = VNum n /\ n < 0)
    /\ (badgeIcon b = Some AlertTriangle <-> badgeColor b = tierColor Flagged)
    /\ exists t, InTier t (scoreOrZero (VNum (-2)))
                 /\ badgeColor b = tierColor t.
Proof.
  apply (row_icon_matches_colour (fun _ => NaN) meera (VNum (-2))).
  - vm_compute. reflexivity.
  - right. right. exists (-2). reflexivity.
Defined.

(** A score that does not coerce to a number is outside that
    agreement: the badge is red, with the shield. *)
Example opaque_score_red_with_shield :
  desktopBadge (fun _ => NaN)
    (obj [("credit_score"%string, VStr (u16 "n/a"))])
  = Normal (Badge red (Some ShieldCheck) (VStr (u16 "n/a"))).
Proof. vm_compute. reflexivity. Qed.
